(** * K2metadata: the target-pixel-file harvesting script

    A shallow embedding of [scripts/2-analyze-target-pixel-files.py]:
    the Python string helpers the script relies on, the FITS header
    access of [TargetPixelFile], the per-file worker [get_metadata_row],
    the aggregation loop [write_metadata_table] and the campaign loop of
    the [__main__] block, followed by the properties of the pipeline.

    Effects (file system, network, log, sleeping) are threaded through
    an explicit world in a small state monad; a computation ends with a
    value, with a raised Python exception, or out of fuel.  The workers
    of the pool are run one after the other, in the order in which the
    pool hands their results over. *)

From Stdlib Require Import ZArith NArith Ascii String List Bool Lia.
From Stdlib Require Import DecimalString Sorting.Permutation.
From Stdlib Require DecimalPos.
From stdpp Require Import base option list strings gmap fin_maps.

Local Open Scope string_scope.
Local Open Scope Z_scope.

(* ===================================================================== *)
(** * Python strings *)
(* ===================================================================== *)

Module PyStr.

(** Python [str] values are modelled by [string] (8-bit characters). *)

Definition nl : ascii := "010"%char.
Definition cr : ascii := "013"%char.
Definition slash : ascii := "/"%char.

(** [str.isspace] on one character, restricted to the 8-bit range the
    model covers: TAB, LF, VT, FF, CR, FS, GS, RS, US and SPACE. *)
Definition is_space (c : ascii) : bool :=
  let n := N_of_ascii c in
  ((9 <=? n)%N && (n <=? 13)%N) || ((28 <=? n)%N && (n <=? 32)%N).

Fixpoint lstrip (s : string) : string :=
  match s with
  | EmptyString => EmptyString
  | String c r => if is_space c then lstrip r else s
  end.

Fixpoint rstrip (s : string) : string :=
  match s with
  | EmptyString => EmptyString
  | String c r =>
      match rstrip r with
      | EmptyString => if is_space c then EmptyString else String c EmptyString
      | r' => String c r'
      end
  end.

(** [s.strip()] *)
Definition strip (s : string) : string := rstrip (lstrip s).

(** [sub in s] for a single character. *)
Fixpoint mem (c : ascii) (s : string) : bool :=
  match s with
  | EmptyString => false
  | String d r => if Ascii.eqb c d then true else mem c r
  end.

(** [sub in s] *)
Fixpoint contains (sub s : string) : bool :=
  String.prefix sub s ||
  match s with
  | EmptyString => false
  | String _ r => contains sub r
  end.

(** [s.replace(old, new)] for a non-empty [old]: scan left to right,
    replacing every non-overlapping occurrence.  [skip] counts the
    characters of a matched occurrence that remain to be dropped. *)
Fixpoint replace_from (skip : nat) (old new s : string) : string :=
  match s with
  | EmptyString => EmptyString
  | String c r =>
      match skip with
      | S k => replace_from k old new r
      | O =>
          if String.prefix old s
          then new +:+ replace_from (Nat.pred (String.length old)) old new r
          else String c (replace_from O old new r)
      end
  end.

Definition replace (old new s : string) : string := replace_from O old new s.

(** [os.path.basename(p)]: everything after the last slash. *)
Fixpoint basename (p : string) : string :=
  match p with
  | EmptyString => EmptyString
  | String _ r => if mem slash p then basename r else p
  end.

(** [os.path.join(a, b)] on POSIX. *)
Definition ends_with_slash (a : string) : bool :=
  match String.get (Nat.pred (String.length a)) a with
  | Some c => Ascii.eqb c slash
  | None => false
  end.

Definition path_join (a b : string) : string :=
  match b with
  | String c _ =>
      if Ascii.eqb c slash then b
      else if (String.eqb a EmptyString || ends_with_slash a) then a +:+ b
      else a +:+ "/" +:+ b
  | EmptyString =>
      if (String.eqb a EmptyString || ends_with_slash a) then a
      else a +:+ "/"
  end.

(** [s.lower()] on ASCII letters. *)
Definition lower_ascii (c : ascii) : ascii :=
  let n := N_of_ascii c in
  if ((65 <=? n)%N && (n <=? 90)%N) then ascii_of_N (n + 32) else c.

Fixpoint lower (s : string) : string :=
  match s with
  | EmptyString => EmptyString
  | String c r => String (lower_ascii c) (lower r)
  end.

(** [sep.join(l)] *)
Definition join (sep : string) (l : list string) : string := String.concat sep l.

(** [str(z)] for an [int]. *)
Definition str_of_Z (z : Z) : string := NilZero.string_of_int (Z.to_int z).

(** What a file opened in text mode hands over for its bytes: with
    Python 3's universal newlines a CR LF pair and a lone CR are both
    read as LF. *)
Fixpoint universal_newlines (s : string) : string :=
  match s with
  | EmptyString => EmptyString
  | String c r =>
      if Ascii.eqb c cr
      then String nl
             match r with
             | String d r' => if Ascii.eqb d nl then universal_newlines r'
                              else universal_newlines r
             | EmptyString => EmptyString
             end
      else String c (universal_newlines r)
  end.

(** The lines of a text whose line terminator is LF, each keeping its
    final LF. *)
Fixpoint readlines_from (cur : string) (s : string) : list string :=
  match s with
  | EmptyString =>
      match cur with EmptyString => [] | _ => [cur] end
  | String c r =>
      if Ascii.eqb c nl
      then (cur +:+ String c EmptyString) :: readlines_from EmptyString r
      else readlines_from (cur +:+ String c EmptyString) r
  end.

(** [f.readlines()] on a file opened with [open(p, 'r')] whose content
    is [s]: a line ends at LF, at CR LF and at a lone CR, and comes with
    LF as its terminator. *)
Definition readlines (s : string) : list string :=
  readlines_from EmptyString (universal_newlines s).


End PyStr.

Import PyStr.

(* ===================================================================== *)
(** * Python values, exceptions and the effect monad *)
(* ===================================================================== *)

(** The values a FITS card can hold, as [astropy] hands them to the
    script.  A float is carried by the text [str] prints for it; the
    script never computes with header floats. *)
Inductive pyval : Type :=
| PStr (s : string)
| PInt (z : Z)
| PFloat (repr : string)
| PBool (b : bool)
| PUndefined.

(** [str(v)].  The text of an [Undefined] object is Python's default
    object text; its address part is left out. *)
Definition py_str (v : pyval) : string :=
  match v with
  | PStr s => s
  | PInt z => str_of_Z z
  | PFloat r => r
  | PBool true => "True"
  | PBool false => "False"
  | PUndefined => "<astropy.io.fits.card.Undefined object>"
  end.

(** The exceptions the script can meet; each derives from [Exception]. *)
Inductive exn : Type :=
| KeyError (kw : string)
| IndexError
| TypeError
| NameError
| AttributeError
| ValueError
| OSError (path : string)
| URLError (url : string).

(** Outcome of a computation: a value, a raised exception, or a loop
    that used up its fuel. *)
Inductive result (A : Type) : Type :=
| Ok (a : A)
| Raise (e : exn)
| Diverge.
Arguments Ok {A} a.
Arguments Raise {A} e.
Arguments Diverge {A}.

Definition M (S A : Type) : Type := S -> result A * S.

Definition ret {S A} (a : A) : M S A := fun s => (Ok a, s).
Definition raise {S A} (e : exn) : M S A := fun s => (Raise e, s).
Definition diverge {S A} : M S A := fun s => (Diverge, s).

Definition bind {S A B} (m : M S A) (k : A -> M S B) : M S B :=
  fun s =>
    match m s with
    | (Ok a, s') => k a s'
    | (Raise e, s') => (Raise e, s')
    | (Diverge, s') => (Diverge, s')
    end.

Declare Scope py_scope.
Delimit Scope py_scope with py.
Notation "'let*' x := m 'in' k" := (bind m (fun x => k))
  (at level 10, x name, m at level 100, k at level 200, only parsing) : py_scope.
Notation "m >> k" := (bind m (fun _ => k))
  (at level 100, k at level 200, right associativity, only parsing) : py_scope.
Local Open Scope py_scope.

Definition get {S} : M S S := fun s => (Ok s, s).
Definition modify {S} (f : S -> S) : M S unit := fun s => (Ok tt, f s).

(** [try: m / except Exception as e: handler e / else: ok] *)
Definition try_with {S A B} (m : M S A) (ok : A -> M S B) (handler : exn -> M S B)
  : M S B :=
  fun s =>
    match m s with
    | (Ok a, s') => ok a s'
    | (Raise e, s') => handler e s'
    | (Diverge, s') => (Diverge, s')
    end.

Definition try_except {S A} (m : M S A) (handler : exn -> M S A) : M S A :=
  try_with m ret handler.

(** [try: m / finally: f]: [f] runs on every exit of [m]; an exception
    of [f] replaces the outcome of [m]. *)
Definition try_finally {S A} (m : M S A) (f : M S unit) : M S A :=
  fun s =>
    match m s with
    | (Diverge, s') => (Diverge, s')
    | (r, s') =>
        match f s' with
        | (Ok _, s'') => (r, s'')
        | (Raise e, s'') => (Raise e, s'')
        | (Diverge, s'') => (Diverge, s'')
        end
    end.

(** [for x in l: acc = body acc x] *)
Fixpoint for_each {S A B} (body : B -> A -> M S B) (l : list A) (acc : B) : M S B :=
  match l with
  | [] => ret acc
  | x :: r => let* acc' := body acc x in for_each body r acc'
  end.

(* ===================================================================== *)
(** * The world: file system, network, log *)
(* ===================================================================== *)

Record HDU : Type := {
  hdr : list (string * pyval);   (* the cards of the header, in file order *)
  data : option (list Z);        (* the data array, flattened; None: no data *)
}.

(** What [urlopen(url)] gives: a refused connection, or a body that
    [read] delivers chunk by chunk, possibly breaking off with [fault]. *)
Inductive Response : Type :=
| ConnectError (e : exn)
| Stream (chunks : list string) (fault : option exn).

Inductive Level : Type := DEBUG | INFO | WARNING | ERROR.

Inductive LogMsg : Type :=
| MaxAttemptsReached (path : string)
| AttemptFailed (path : string) (attempt : Z) (e : exn)
| NowSleeping (secs : Z)
| Downloading (url : string)
| Reading (path : string)
| WorkerError (url : string) (e : exn)
| Removing (path : string)
| CouldNotDelete (url : string) (e : exn)
| ProvideCampaign
| NowIndexing (campaign : Z).

Inductive Event : Type :=
| EvLog (lvl : Level) (msg : LogMsg)
| EvUrlopen (url : string)
| EvCreate (path : string)
| EvFitsOpen (path : string)
| EvSleep (secs : Z)
| EvUnlink (path : string).

(** The part of the world the script cannot change. *)
Record Env : Type := {
  net : string -> Response;              (* the remote archive *)
  decode : string -> exn + list HDU;     (* astropy's reading of a file's bytes *)
  create_error : string -> option exn;   (* paths [open(.., 'w')] refuses *)
  unlink_error : string -> option exn;   (* paths [os.unlink] refuses *)
}.

Record World : Type := {
  env : Env;
  fs : gmap string string;       (* regular files: path to content *)
  faults : list (option exn);    (* transient faults met by successive [fits.open] calls *)
  trace : list Event;            (* what happened so far, oldest first *)
}.

Definition set_fs (f : gmap string string -> gmap string string) (w : World) : World :=
  {| env := env w; fs := f (fs w); faults := faults w; trace := trace w |}.
Definition set_faults (l : list (option exn)) (w : World) : World :=
  {| env := env w; fs := fs w; faults := l; trace := trace w |}.
Definition add_event (e : Event) (w : World) : World :=
  {| env := env w; fs := fs w; faults := faults w; trace := trace w ++ [e] |}.

Definition emit (e : Event) : M World unit := modify (add_event e).

(** [log.setLevel("INFO")] *)
Definition LOG_LEVEL : Level := INFO.

Definition level_rank (l : Level) : nat :=
  match l with DEBUG => 0 | INFO => 1 | WARNING => 2 | ERROR => 3 end%nat.

Definition log (lvl : Level) (msg : LogMsg) : M World unit :=
  if (level_rank LOG_LEVEL <=? level_rank lvl)%nat then emit (EvLog lvl msg) else ret tt.

(** [os.path.exists(p)] *)
Definition path_exists (p : string) : M World bool :=
  let* w := get in
  ret (match fs w !! p with Some _ => true | None => false end).

(** [os.path.getsize(p)] *)
Definition getsize (p : string) : M World N :=
  let* w := get in
  match fs w !! p with
  | Some c => ret (N.of_nat (String.length c))
  | None => raise (OSError p)
  end.

(** [open(p, 'w')] and [open(p, 'wb')]: create or truncate. *)
Definition open_w (p : string) : M World unit :=
  emit (EvCreate p) >>
  let* w := get in
  match create_error (env w) p with
  | Some e => raise e
  | None => modify (set_fs (insert p EmptyString))
  end.

(** [f.write(c)] on the file opened at [p]. *)
Definition file_write (p c : string) : M World unit :=
  modify (set_fs (fun m => <[p := default EmptyString (m !! p) +:+ c]> m)).

(** [open(p, 'r')] followed by reading the whole text. *)
Definition open_r (p : string) : M World string :=
  let* w := get in
  match fs w !! p with
  | Some c => ret c
  | None => raise (OSError p)
  end.

(** [os.unlink(p)] *)
Definition unlink (p : string) : M World unit :=
  emit (EvUnlink p) >>
  let* w := get in
  match unlink_error (env w) p with
  | Some e => raise e
  | None =>
      match fs w !! p with
      | Some _ => modify (set_fs (delete p))
      | None => raise (OSError p)
      end
  end.

(** [time.sleep(secs)] *)
Definition sleep (secs : Z) : M World unit := emit (EvSleep secs).

(** [urlopen(url)] *)
Definition urlopen (url : string) : M World (list string * option exn) :=
  emit (EvUrlopen url) >>
  let* w := get in
  match net (env w) url with
  | ConnectError e => raise e
  | Stream chunks fault => ret (chunks, fault)
  end.

(** [fits.open(path, memmap=True)] *)
Definition fits_open (path : string) : M World (list HDU) :=
  emit (EvFitsOpen path) >>
  let* w := get in
  let* _ := (match faults w with
             | [] => ret tt
             | f :: r =>
                 modify (set_faults r) >>
                 match f with Some e => raise e | None => ret tt end
             end) in
  match fs w !! path with
  | None => raise (OSError path)
  | Some c =>
      match decode (env w) c with
      | inl e => raise e
      | inr hdus => ret hdus
      end
  end.

(* ===================================================================== *)
(** * Configuration constants *)
(* ===================================================================== *)

Definition DATA_STORE : string := "/media/gb/kdata/k2/target_pixel_files".
Definition TMPDIR : string := "/data/tmp/".
Definition MAX_ATTEMPTS : Z := 50.
Definition SLEEP_BETWEEN_ATTEMPTS : Z := 30.
Definition IGNORE_SHORT_CADENCE : bool := false.

(** The prefix [get_metadata_row] replaces by [DATA_STORE]. *)
Definition MAST_PREFIX : string :=
  "http://archive.stsci.edu/missions/k2/target_pixel_files".

(* ===================================================================== *)
(** * class TargetPixelFile *)
(* ===================================================================== *)

Record TargetPixelFile : Type := {
  tpf_path : string;
  tpf_url : string;
  tpf_fits : option (list HDU);   (* None: the attribute was never bound *)
}.

(** The [while attempt <= MAX_ATTEMPTS] loop of [__init__].  [self_fits]
    is the [fits] attribute as bound so far.  A successful open sets
    [attempt] to 99, which ends the loop as long as 99 exceeds
    [MAX_ATTEMPTS]. *)
Fixpoint open_attempts (fuel : nat) (path : string) (attempt : Z)
    (self_fits : option (list HDU)) : M World (option (list HDU)) :=
  if attempt <=? MAX_ATTEMPTS then
    match fuel with
    | O => diverge
    | S fuel' =>
        try_with (fits_open path)
          (fun hdus => open_attempts fuel' path 99 (Some hdus))
          (fun e =>
             if attempt =? MAX_ATTEMPTS then
               log ERROR (MaxAttemptsReached path) >> raise e
             else
               log WARNING (AttemptFailed path attempt e) >>
               log WARNING (NowSleeping SLEEP_BETWEEN_ATTEMPTS) >>
               sleep SLEEP_BETWEEN_ATTEMPTS >>
               open_attempts fuel' path (attempt + 1) self_fits)
    end
  else ret self_fits.

(** Iterations granted to the loop; [open_attempts_spec] shows that the
    loop never needs more. *)
Definition LOOP_FUEL : nat := Z.to_nat MAX_ATTEMPTS.

(** [TargetPixelFile(path, url)].  Note that [fits.open] receives [path]
    as given, while the [path] attribute is the stripped one. *)
Definition TargetPixelFile_init (path : string) (url : option string)
  : M World TargetPixelFile :=
  let self_path := strip path in
  let self_url := match url with Some u => u | None => self_path end in
  let* f := open_attempts LOOP_FUEL path 1 None in
  ret {| tpf_path := self_path; tpf_url := self_url; tpf_fits := f |}.

(** [self.fits] *)
Definition attr_fits (self : TargetPixelFile) : M World (list HDU) :=
  match tpf_fits self with
  | Some f => ret f
  | None => raise AttributeError
  end.

(** [hdulist[ext]] *)
Definition hdu_at (f : list HDU) (ext : nat) : M World HDU :=
  match f !! ext with
  | Some h => ret h
  | None => raise IndexError
  end.

(** [header[kw]]: the value of the first card named [kw]. *)
Fixpoint card_lookup (kw : string) (cards : list (string * pyval)) : option pyval :=
  match cards with
  | [] => None
  | (k, v) :: r => if String.eqb kw k then Some v else card_lookup kw r
  end.

Definition header_getitem (h : HDU) (kw : string) : M World pyval :=
  match card_lookup kw (hdr h) with
  | Some v => ret v
  | None => raise (KeyError kw)
  end.

(** What [self.header] returns once the extension is at hand: the empty
    string for a missing card ([KeyError]) and for an [Undefined] value. *)
Definition card_value (h : HDU) (kw : string) : pyval :=
  match card_lookup kw (hdr h) with
  | None => PStr EmptyString
  | Some PUndefined => PStr EmptyString
  | Some v => v
  end.

(** [self.header(kw, ext)].  Only the [KeyError] of the card lookup is
    handled; an [IndexError] of [self.fits[ext]], evaluated inside the
    same [try], is not. *)
Definition header (self : TargetPixelFile) (kw : string) (ext : nat) : M World pyval :=
  let* f := attr_fits self in
  let* h := hdu_at f ext in
  ret (card_value h kw).

(** An [OrderedDict] from field name to value. *)
Definition OrderedDict : Type := list (string * pyval).

(** [meta[k] = v]: a new key goes last, a known key keeps its place. *)
Fixpoint od_set (k : string) (v : pyval) (m : OrderedDict) : OrderedDict :=
  match m with
  | [] => [(k, v)]
  | (k', v') :: r =>
      if String.eqb k k' then (k, v) :: r else (k', v') :: od_set k v r
  end.

Definition od_keys (m : OrderedDict) : list string := map fst m.
Definition od_values (m : OrderedDict) : list pyval := map snd m.

(** ["{:.1f}".format(size / 1048576.)]: [size / 2^20] is exact in a
    double for every size below 2^53, and the format rounds the exact
    value to one decimal, ties to even. *)
Definition format_mb (size : N) : string :=
  let q := (size * 10 / 1048576)%N in
  let r := (size * 10 mod 1048576)%N in
  let tenths :=
    if (524288 <? r)%N then (q + 1)%N
    else if (r =? 524288)%N && N.odd q then (q + 1)%N
    else q in
  str_of_Z (Z.of_N (tenths / 10)) +:+ "." +:+ str_of_Z (Z.of_N (tenths mod 10)).

(** [(hdu.data > 0).sum()] *)
Definition count_positive (h : HDU) : M World Z :=
  match data h with
  | Some a => ret (Z.of_nat (List.length (filter (fun x => 0 <? x) a)))
  | None => raise TypeError
  end.

Definition PRIMARY_KEYWORDS : list string :=
  ["OBJECT"; "KEPLERID"; "OBSMODE"; "CAMPAIGN"; "DATA_REL";
   "CHANNEL"; "MODULE"; "OUTPUT"; "RA_OBJ"; "DEC_OBJ"; "KEPMAG"].

Definition TABLE_KEYWORDS : list string :=
  ["LC_START"; "LC_END"; "GAIN"; "READNOIS"; "MEANBLCK";
   "CDPP3_0"; "CDPP6_0"; "CDPP12_0"].

Definition APERTURE_KEYWORDS : list string :=
  ["NAXIS1"; "NAXIS2"; "CRPIX1"; "CRPIX2"; "CRVAL1"; "CRVAL2";
   "CDELT1"; "CDELT2"; "PC1_1"; "PC1_2"; "PC2_1"; "PC2_2";
   "CRVAL1P"; "CRVAL2P"].

(** [for kw in kws: meta[kw] = self.header(kw, ext)] *)
Definition header_loop (self : TargetPixelFile) (kws : list string) (ext : nat)
    (meta : OrderedDict) : M World OrderedDict :=
  for_each (fun meta kw => let* v := header self kw ext in ret (od_set kw v meta))
           kws meta.

Definition get_metadata (self : TargetPixelFile) : M World OrderedDict :=
  let meta := [] in
  let meta := od_set "filename" (PStr (basename (tpf_url self))) meta in
  let meta := od_set "url" (PStr (tpf_url self)) meta in
  let* size := getsize (tpf_path self) in
  let meta := od_set "filesize" (PStr (format_mb size)) meta in
  let* meta := header_loop self PRIMARY_KEYWORDS 0 meta in
  let* f := attr_fits self in
  let* h1 := hdu_at f 1 in
  let* cadences := header_getitem h1 "NAXIS2" in
  let meta := od_set "cadences" cadences meta in
  let* meta := header_loop self TABLE_KEYWORDS 1 meta in
  let* f := attr_fits self in
  let* h2 := hdu_at f 2 in
  let* npix := count_positive h2 in
  let meta := od_set "npix" (PInt npix) meta in
  header_loop self APERTURE_KEYWORDS 2 meta.

Definition get_csv_header (self : TargetPixelFile) : M World string :=
  let* meta := get_metadata self in
  ret (join "," (map lower (od_keys meta))).

(** [meta[kw]] on the dictionary. *)
Definition od_getitem (m : OrderedDict) (kw : string) : M World pyval :=
  match card_lookup kw m with
  | Some v => ret v
  | None => raise (KeyError kw)
  end.

Definition get_csv_row (self : TargetPixelFile) : M World string :=
  let* meta := get_metadata self in
  let* cells :=
    for_each (fun cells kw => let* v := od_getitem meta kw in ret (cells ++ [py_str v])%list)
             (od_keys meta) [] in
  ret (join "," cells).

(* ===================================================================== *)
(** * download_file and get_metadata_row *)
(* ===================================================================== *)

(** The [while True] loop of [download_file]: [read] hands out the
    chunks in turn, an empty chunk ends the loop. *)
Fixpoint read_loop (local_filename : string) (chunks : list string)
    (fault : option exn) : M World unit :=
  match chunks with
  | [] =>
      match fault with
      | Some e => raise e
      | None => ret tt
      end
  | chunk :: rest =>
      match chunk with
      | EmptyString => ret tt
      | _ => file_write local_filename chunk >> read_loop local_filename rest fault
      end
  end.

Definition download_file (url local_filename : string) : M World unit :=
  let* response := urlopen url in
  open_w local_filename >>
  read_loop local_filename (fst response) (snd response).

(** The local variables of [get_metadata_row] that outlive the [try]
    block.  [path] is unbound until the block assigns it. *)
Record Locals : Type := {
  output : string;
  tmp_download : bool;
  path : option string;
}.

Definition WorkerState : Type := (Locals * World)%type.

Definition lift {A} (m : M World A) : M WorkerState A :=
  fun s => let '(r, w) := m (snd s) in (r, (fst s, w)).

Definition set_tmp_download (b : bool) : M WorkerState unit :=
  modify (fun s => ({| output := output (fst s); tmp_download := b; path := path (fst s) |}, snd s)).
Definition set_path (p : string) : M WorkerState unit :=
  modify (fun s => ({| output := output (fst s); tmp_download := tmp_download (fst s);
                       path := Some p |}, snd s)).
Definition add_output (t : string) : M WorkerState unit :=
  modify (fun s => ({| output := output (fst s) +:+ t; tmp_download := tmp_download (fst s);
                       path := path (fst s) |}, snd s)).
Definition get_path : M WorkerState string :=
  let* s := get in
  match path (fst s) with
  | Some p => ret p
  | None => raise NameError
  end.

Definition LF : string := String nl EmptyString.

(** The body of the [try] block; [url] is already stripped. *)
Definition try_block (url : string) (header : bool) : M WorkerState unit :=
  set_tmp_download false >>
  let localpath := replace MAST_PREFIX DATA_STORE url in
  let* found := lift (path_exists localpath) in
  (if found then set_path localpath
   else
     lift (log DEBUG (Downloading url)) >>
     set_path (path_join TMPDIR (basename url)) >>
     (let* p := get_path in lift (download_file url p)) >>
     set_tmp_download true) >>
  (let* p := get_path in lift (log DEBUG (Reading p))) >>
  let* p := get_path in
  let* tpf := lift (TargetPixelFile_init p (Some url)) in
  (if header
   then let* h := lift (get_csv_header tpf) in add_output (h +:+ LF)
   else ret tt) >>
  let* row := lift (get_csv_row tpf) in
  add_output (row +:+ LF).

(** The [finally] block. *)
Definition finally_block (url : string) : M WorkerState unit :=
  let* s := get in
  if tmp_download (fst s) then
    (let* p := get_path in lift (log DEBUG (Removing p))) >>
    try_except (let* p := get_path in lift (unlink p))
               (fun e => lift (log ERROR (CouldNotDelete url e)))
  else ret tt.

(** [get_metadata_row(url, header)].  The unused [data_store] argument
    is left out.  [None] is the skipped short-cadence file. *)
Definition get_metadata_row_in (url : string) (header : bool)
  : M WorkerState (option string) :=
  let url := strip url in
  if IGNORE_SHORT_CADENCE && contains "spd-targ" url then ret None
  else
    try_finally
      (try_except (try_block url header)
                  (fun e => lift (log ERROR (WorkerError url e))))
      (finally_block url) >>
    let* s := get in ret (Some (output (fst s))).

(** The locals on entry: [output = ""], nothing else bound. *)
Definition init_locals : Locals :=
  {| output := EmptyString; tmp_download := false; path := None |}.

Definition get_metadata_row (url : string) (header : bool)
  : M World (option string) :=
  fun w =>
    let '(r, s) := get_metadata_row_in url header (init_locals, w) in
    (r, snd s).

(* ===================================================================== *)
(** * write_metadata_table and the main block *)
(* ===================================================================== *)

(** [out.write(result)]: writing [None] is a [TypeError]. *)
Definition out_write (output_fn : string) (result : option string) : M World unit :=
  match result with
  | Some t => file_write output_fn t
  | None => raise TypeError
  end.

(** The [for idx, result in enumerate(p.imap_unordered(...))] loop.  The
    pool hands the results over in completion order; the workers are run
    one after the other in that order. *)
Definition pool_loop (output_fn : string) (completed : list string) : M World unit :=
  for_each
    (fun _ url =>
       let* result := get_metadata_row url false in
       match result with
       | Some t => file_write output_fn t
       | None => ret tt
       end)
    completed tt.

(** [write_metadata_table(input_fn, output_fn)].  [order] is the
    completion order the pool happens to produce for the URLs it is
    given. *)
Definition write_metadata_table (order : list string -> list string)
    (input_fn output_fn : string) : M World unit :=
  open_w output_fn >>
  let* text := open_r input_fn in
  let urls := readlines text in
  match urls with
  | [] => raise IndexError
  | first :: others =>
      let* result := get_metadata_row first true in
      out_write output_fn result >>
      pool_loop output_fn (order others)
  end.

(** [int(s)] on ASCII text: surrounding blanks, a sign, decimal digits
    with single underscores between them. *)
Definition digit_val (c : ascii) : option Z :=
  let n := N_of_ascii c in
  if ((48 <=? n)%N && (n <=? 57)%N) then Some (Z.of_N (n - 48)) else None.

Fixpoint parse_digits (s : string) (acc : Z) (after_digit : bool) : option Z :=
  match s with
  | EmptyString => if after_digit then Some acc else None
  | String c r =>
      match digit_val c with
      | Some d => parse_digits r (10 * acc + d) true
      | None =>
          if Ascii.eqb c "_"%char && after_digit then parse_digits r acc false
          else None
      end
  end.

Definition py_int (s : string) : M World Z :=
  let parsed :=
    match strip s with
    | String "+"%char r => parse_digits r 0 false
    | String "-"%char r => Z.opp <$> parse_digits r 0 false
    | t => parse_digits t 0 false
    end in
  match parsed with
  | Some z => ret z
  | None => raise ValueError
  end.

(** ["{:02d}".format(n)] *)
Definition fmt02 (n : Z) : string :=
  let t := str_of_Z n in
  if (String.length t <? 2)%nat then "0" +:+ t else t.

Definition input_fn_of (campaign : Z) : string :=
  "intermediate-data/k2-c" +:+ fmt02 campaign +:+ "-tpf-urls.txt".
Definition output_fn_of (campaign : Z) : string :=
  "intermediate-data/k2-c" +:+ fmt02 campaign +:+ "-tpf-metadata.csv".

(** The [for campaign in campaigns] loop. *)
Definition campaign_loop (order : list string -> list string) (campaigns : list Z)
  : M World unit :=
  for_each
    (fun _ campaign =>
       log INFO (NowIndexing campaign) >>
       write_metadata_table order (input_fn_of campaign) (output_fn_of campaign))
    campaigns tt.

(** The [if __name__ == "__main__"] block; [argv] is [sys.argv].  The
    value is the exit status: [sys.exit(1)] ends the program with 1, the
    end of the block with 0; an exception that nothing handles stays a
    raised outcome. *)
Definition main (order : list string -> list string) (argv : list string) : M World Z :=
  if negb (List.length argv =? 2)%nat then
    log ERROR ProvideCampaign >> ret 1
  else
    let* campaigns :=
      match argv !! 1%nat with
      | None => raise IndexError
      | Some a =>
          if String.eqb a "all" then ret [0; 1; 2; 3; 4; 5]
          else let* c := py_int a in ret [c]
      end in
    campaign_loop order campaigns >> ret 0.

(* ===================================================================== *)
(** * Notions the statements are phrased with *)
(* ===================================================================== *)

(** The candidate path in the local mirror and the scratch path, as the
    [try] block computes them from the stripped URL. *)
Definition local_path (url : string) : string := replace MAST_PREFIX DATA_STORE url.
Definition scratch_path (url : string) : string := path_join TMPDIR (basename url).

(** The header line as the specification spells it out. *)
Definition SPEC_HEADER : string :=
  "filename,url,filesize,object,keplerid,obsmode,campaign,data_rel,channel,module,output,ra_obj,dec_obj,kepmag,cadences,lc_start,lc_end,gain,readnois,meanblck,cdpp3_0,cdpp6_0,cdpp12_0,npix,naxis1,naxis2,crpix1,crpix2,crval1,crval2,cdelt1,cdelt2,pc1_1,pc1_2,pc2_1,pc2_2,crval1p,crval2p".

(** The keys of the record, in insertion order. *)
Definition FIELD_KEYS : list string :=
  ["filename"; "url"; "filesize"] ++ PRIMARY_KEYWORDS ++ ["cadences"]
  ++ TABLE_KEYWORDS ++ ["npix"] ++ APERTURE_KEYWORDS.

(** The record [get_metadata] builds for [url] and a file of [size] bytes whose
    first three HDUs are [h0], [h1] and [h2], where [cadences] is the
    [NAXIS2] card of [h1] and [pix] the data array of [h2]. *)
Definition expected_record (url : string) (size : N) (h0 h1 h2 : HDU)
    (cadences : pyval) (pix : list Z) : OrderedDict :=
  ([("filename", PStr (basename url));
    ("url", PStr url);
    ("filesize", PStr (format_mb size))]
   ++ map (fun kw => (kw, card_value h0 kw)) PRIMARY_KEYWORDS
   ++ [("cadences", cadences)]
   ++ map (fun kw => (kw, card_value h1 kw)) TABLE_KEYWORDS
   ++ [("npix", PInt (Z.of_nat (List.length (filter (fun x => 0 <? x) pix))))]
   ++ map (fun kw => (kw, card_value h2 kw)) APERTURE_KEYWORDS)%list.

(** The data line of a record. *)
Definition csv_line (meta : OrderedDict) : string :=
  join "," (map py_str (od_values meta)).

(** What [get_metadata] needs to go through: the three HDUs, the local
    file, the [NAXIS2] card of extension 1 and the data of extension 2. *)
Definition extractable (self : TargetPixelFile) (w : World) (size : N)
    (h0 h1 h2 : HDU) (cadences : pyval) (pix : list Z) : Prop :=
  exists f c,
    tpf_fits self = Some f /\
    f !! 0%nat = Some h0 /\ f !! 1%nat = Some h1 /\ f !! 2%nat = Some h2 /\
    fs w !! tpf_path self = Some c /\ size = N.of_nat (String.length c) /\
    card_lookup "NAXIS2" (hdr h1) = Some cadences /\
    data h2 = Some pix.

(** A text without line terminator. *)
Definition one_line (s : string) : Prop := mem nl s = false.


(** The per-file failures a run has logged. *)
Definition is_worker_error (e : Event) : bool :=
  match e with
  | EvLog ERROR (WorkerError _ _) => true
  | _ => false
  end.

Definition failures (t : list Event) : nat := List.length (filter is_worker_error t).

(** Number of events of a kind in a trace. *)
Definition count_ev (f : Event -> bool) (t : list Event) : nat :=
  List.length (List.filter f t).

(** Attempts to open a file, and sleeps between them. *)
Definition is_fits_open (e : Event) : bool :=
  match e with EvFitsOpen _ => true | _ => false end.
Definition is_sleep (e : Event) : bool :=
  match e with EvSleep _ => true | _ => false end.

(** Events of the [fits.open] retry loop on [p]. *)
Definition is_open_event (p : string) (e : Event) : bool :=
  match e with
  | EvFitsOpen q => String.eqb q p
  | EvSleep _ => true
  | EvLog WARNING (AttemptFailed _ _ _) | EvLog WARNING (NowSleeping _) => true
  | EvLog ERROR (MaxAttemptsReached _) => true
  | _ => false
  end.

(** Events of a worker that only reads the local file [p]: no network
    access, no file created or removed, no other file opened. *)
Definition reads_only (p : string) (e : Event) : bool :=
  match e with
  | EvFitsOpen q => String.eqb q p
  | EvUrlopen _ | EvCreate _ | EvUnlink _ => false
  | _ => true
  end.

(** [evolve changed evs w w']: from [w] to [w'] the environment is the
    same, the events [evs] were appended to the trace, and only files at
    [changed] paths may differ. *)
Definition evolve (changed : string -> Prop) (evs : list Event) (w w' : World) : Prop :=
  env w' = env w /\
  trace w' = (trace w ++ evs)%list /\
  forall p, ~ changed p -> fs w' !! p = fs w !! p.

Definition no_change : string -> Prop := fun _ => False.

(** The text a list of pieces makes up. *)
Fixpoint cat_lines (l : list string) : string :=
  match l with
  | [] => EmptyString
  | x :: r => x +:+ cat_lines r
  end.

(** The chunks [download_file] writes: those before the first empty one. *)
Fixpoint written_chunks (chunks : list string) : list string :=
  match chunks with
  | [] => []
  | EmptyString :: _ => []
  | c :: r => c :: written_chunks r
  end.

(** How the read loop ends on these chunks: at an empty chunk (a normal
    end), or after the last chunk with what [fault] says. *)
Fixpoint read_outcome (chunks : list string) (fault : option exn) : result unit :=
  match chunks with
  | [] => match fault with Some e => Raise e | None => Ok tt end
  | EmptyString :: _ => Ok tt
  | _ :: r => read_outcome r fault
  end.

(** [content] is the file the worker of the stripped URL [url] works on
    in the world [w]: the file at the mirror path when there is one,
    and otherwise the body the archive serves for the URL, provided the
    download goes through (the scratch file can be created and the body
    comes to its end). *)
Definition worker_file (w : World) (url content : string) : Prop :=
  match fs w !! local_path url with
  | Some c => content = c
  | None =>
      exists chunks fault,
        net (env w) url = Stream chunks fault /\
        create_error (env w) (scratch_path url) = None /\
        read_outcome chunks fault = Ok tt /\
        content = cat_lines (written_chunks chunks)
  end.

(** [row] is the data line of a file with the bytes [content], fetched
    for [url]: the bytes decode to at least three HDUs with an [NAXIS2]
    card in extension 1 and a data array in extension 2, and [row] is
    the line of the record built from them and from the length of
    [content]. *)
Definition record_line (e : Env) (url content row : string) : Prop :=
  exists f h0 h1 h2 cad pix,
    decode e content = inr f /\
    f !! 0%nat = Some h0 /\ f !! 1%nat = Some h1 /\ f !! 2%nat = Some h2 /\
    card_lookup "NAXIS2" (hdr h1) = Some cad /\
    data h2 = Some pix /\
    row = csv_line (expected_record url (N.of_nat (String.length content))
                      h0 h1 h2 cad pix).

(** [row] is the data line of the stripped URL [url] in the world [w]:
    the line of the file the worker works on.  There is at most one. *)
Definition is_data_row (w : World) (url row : string) : Prop :=
  exists content, worker_file w url content /\ record_line (env w) url content row.


(** The failures of workers in a trace, in the order they were logged. *)
Definition logged_failures (t : list Event) : list Event := filter is_worker_error t.

(** [accounted P urls rows errs]: going through [urls] in order, every
    URL either gives the next line of [rows], which is its line [P], or
    the next logged failure of [errs], which names it, and never both;
    nothing else is in [rows] and [errs]. *)
Inductive accounted (P : string -> string -> Prop)
  : list string -> list string -> list Event -> Prop :=
| accounted_nil : accounted P [] [] []
| accounted_row u urls row rows errs :
    P (strip u) row -> accounted P urls rows errs ->
    accounted P (u :: urls) (row :: rows) errs
| accounted_failure u urls rows e errs :
    accounted P urls rows errs ->
    accounted P (u :: urls) rows (EvLog ERROR (WorkerError (strip u) e) :: errs).

(** What a worker returns for a row, with and without the header line. *)
Definition worker_output (header : bool) (row : string) : string :=
  if header then (SPEC_HEADER +:+ LF) +:+ (row +:+ LF) else row +:+ LF.

(** The text made of the given lines. *)
Fixpoint lines_text (rows : list string) : string :=
  match rows with
  | [] => EmptyString
  | r :: rs => (r +:+ LF) +:+ lines_text rs
  end.

(** Paths inside the scratch directory. *)
Definition in_scratch (p : string) : Prop := String.prefix TMPDIR p = true.

(** The world right after [open(p, 'w')] went through. *)
Definition truncated (p : string) (w : World) : World :=
  set_fs (insert p EmptyString) (add_event (EvCreate p) w).






(** ** Notions of the further properties *)

(** The field separator of the CSV lines. *)
Definition comma : ascii := ","%char.

(** [s.count(c)] for a single character. *)
Fixpoint count_char (c : ascii) (s : string) : nat :=
  match s with
  | EmptyString => O
  | String d r => (if Ascii.eqb c d then 1 else 0)%nat + count_char c r
  end.

(** The next call of [fits.open] meets no transient fault. *)
Definition no_fault_next (l : list (option exn)) : Prop :=
  match l with
  | Some _ :: _ => False
  | _ => True
  end.


(** Commas inside the cells of a line. *)
Definition commas_in (cells : list string) : nat :=
  fold_right (fun y n => (count_char comma y + n)%nat) 0%nat cells.

(** The last character of a text. *)
Fixpoint last_char (s : string) : option ascii :=
  match s with
  | EmptyString => None
  | String c EmptyString => Some c
  | String _ r => last_char r
  end.

(* ===================================================================== *)
(** * Sample files and worlds *)
(* ===================================================================== *)

Module Sample.

Definition primary : HDU :=
  {| hdr := [("OBJECT", PStr "EPIC 201121245"); ("KEPLERID", PInt 201121245);
             ("CAMPAIGN", PInt 1); ("KEPMAG", PUndefined); ("RA_OBJ", PFloat "173.93961")];
     data := None |}.

Definition table : HDU :=
  {| hdr := [("NAXIS1", PInt 256); ("NAXIS2", PInt 3913); ("GAIN", PFloat "110.2")];
     data := None |}.

Definition aperture : HDU :=
  {| hdr := [("NAXIS1", PInt 3); ("NAXIS2", PInt 2); ("CRPIX1", PFloat "2.5")];
     data := Some [0; 1; 3; 3; 0; -1] |}.

(** An image extension in the place of the table: it has no [NAXIS2]. *)
Definition image1d : HDU :=
  {| hdr := [("NAXIS", PInt 1); ("NAXIS1", PInt 256); ("GAIN", PFloat "110.2")];
     data := None |}.

Definition tpf_hdus : list HDU := [primary; table; aperture].
Definition odd_hdus : list HDU := [primary; image1d; aperture].

Definition url_a : string := "http://example.org/tpf/ktwo201121245-c01_lpd-targ.fits".
Definition url_b : string := "http://example.org/tpf/ktwo201122454-c01_lpd-targ.fits".
Definition url_m : string :=
  "http://archive.stsci.edu/missions/k2/target_pixel_files/c1/ktwo201126503-c01_lpd-targ.fits".
Definition url_a' : string := "http://mirror.example.net/ktwo201121245-c01_lpd-targ.fits".

(** The archive serves [url_a] in two chunks, breaks off while serving
    [url_b] and refuses any other URL.  A file holding [FITS] decodes to
    [tpf_hdus], one holding [ODD] to [odd_hdus]. *)
Definition sample_env : Env :=
  {| net := fun u =>
       if String.eqb u url_a then Stream ["FI"; "TS"] None
       else if String.eqb u url_b then Stream ["FI"] (Some (URLError u))
       else ConnectError (URLError u);
     decode := fun c =>
       if String.eqb c "FITS" then inr tpf_hdus
       else if String.eqb c "ODD" then inr odd_hdus
       else inl (OSError "not a FITS file");
     create_error := fun _ => None;
     unlink_error := fun _ => None |}.

Definition mirror_file : string :=
  "/media/gb/kdata/k2/target_pixel_files/c1/ktwo201126503-c01_lpd-targ.fits".

Definition url_list : string :=
  url_b +:+ LF +:+ url_a +:+ LF +:+ url_m +:+ LF.

(** Campaign 1 has its URL list, campaign 0 has none. *)
Definition world : World :=
  {| env := sample_env;
     fs := {[ mirror_file := "FITS";
              "intermediate-data/k2-c01-tpf-urls.txt" := url_list;
              "intermediate-data/k2-c01-tpf-metadata.csv" := "stale" ]};
     faults := [];
     trace := [] |}.

(** A completion order: the pool hands the results over last to first. *)
Definition last_first (l : list string) : list string := rev l.

(** An opened file whose extension 1 is the image. *)
Definition odd_tpf : TargetPixelFile :=
  {| tpf_path := mirror_file; tpf_url := url_m; tpf_fits := Some odd_hdus |}.

Definition good_tpf : TargetPixelFile :=
  {| tpf_path := mirror_file; tpf_url := url_m; tpf_fits := Some tpf_hdus |}.

End Sample.

(** Further sample worlds. *)
Module MoreSamples.

Import Sample.

(** The archive and the decoder of [sample_env], on a machine where no
    file can be unlinked. *)
Definition stuck_env : Env :=
  {| net := net sample_env;
     decode := decode sample_env;
     create_error := fun _ => None;
     unlink_error := fun p => Some (OSError p) |}.

Definition stuck_world : World :=
  {| env := stuck_env; fs := fs world; faults := []; trace := [] |}.




End MoreSamples.

(* ===================================================================== *)
(** * Sanity checks of the model *)
(* ===================================================================== *)

Section SanityChecks.

Import Sample.

Example strip_ex : strip ("  http://a/b.fits" +:+ LF) = "http://a/b.fits".
Proof. reflexivity. Qed.

Example replace_ex : replace "ab" "X" "cababdab-a" = "cXXdX-a".
Proof. reflexivity. Qed.

Example local_path_ex : local_path url_m = mirror_file /\ local_path url_a = url_a.
Proof. split; reflexivity. Qed.

Example basename_ex :
  basename "http://a/b/c.fits" = "c.fits" /\ basename "a/" = EmptyString /\ basename "x" = "x".
Proof. repeat split. Qed.

Example join_ex : path_join "/data/tmp/" "c.fits" = "/data/tmp/c.fits"
  /\ path_join "/data/tmp" "c.fits" = "/data/tmp/c.fits"
  /\ path_join "/data/tmp/" "/c.fits" = "/c.fits"
  /\ path_join "/data/tmp/" EmptyString = "/data/tmp/".
Proof. repeat split. Qed.

Example lower_ex : lower "CDPP3_0" = "cdpp3_0".
Proof. reflexivity. Qed.

Example str_of_Z_ex : str_of_Z 0 = "0" /\ str_of_Z 1070 = "1070" /\ str_of_Z (-12) = "-12".
Proof. repeat split. Qed.

Example readlines_universal_ex :
  readlines ("a" +:+ String cr LF +:+ "b" +:+ String cr "c" +:+ LF +:+ String cr EmptyString)
  = ["a" +:+ LF; "b" +:+ LF; "c" +:+ LF; LF].
Proof. reflexivity. Qed.

Example readlines_ex :
  readlines ("a" +:+ LF +:+ "b" +:+ LF +:+ LF +:+ "c") = ["a" +:+ LF; "b" +:+ LF; LF; "c"].
Proof. reflexivity. Qed.

Example fmt02_ex : fmt02 3 = "03" /\ fmt02 12 = "12" /\ fmt02 (-1) = "-1" /\ fmt02 123 = "123".
Proof. repeat split. Qed.

Example format_mb_ex :
  format_mb 262144 = "0.2" /\ format_mb 786432 = "0.8" /\ format_mb 5765760 = "5.5"
  /\ format_mb 0 = "0.0" /\ format_mb 10433331 = "9.9" /\ format_mb 10485760 = "10.0".
Proof. repeat split. Qed.

Example py_int_ex :
  fst (py_int " 12 " world) = Ok 12 /\ fst (py_int "-0_7" world) = Ok (-7)
  /\ fst (py_int "1__0" world) = Raise ValueError /\ fst (py_int "c1" world) = Raise ValueError.
Proof. repeat split. Qed.

(** Two transient faults of [fits.open] cost two sleeps; the third
    attempt opens the file. *)
Example retry_ex :
  let w := set_faults [Some (OSError mirror_file); Some (OSError mirror_file)] world in
  let r := TargetPixelFile_init mirror_file (Some url_m) w in
  fst r = Ok good_tpf /\
  trace (snd r) =
    [EvFitsOpen mirror_file;
     EvLog WARNING (AttemptFailed mirror_file 1 (OSError mirror_file));
     EvLog WARNING (NowSleeping 30); EvSleep 30;
     EvFitsOpen mirror_file;
     EvLog WARNING (AttemptFailed mirror_file 2 (OSError mirror_file));
     EvLog WARNING (NowSleeping 30); EvSleep 30;
     EvFitsOpen mirror_file].
Proof. vm_compute. split; reflexivity. Qed.

(** A file that never opens is tried [MAX_ATTEMPTS] times, with a sleep
    after every attempt but the last. *)
Example retry_exhausted_ex :
  let r := TargetPixelFile_init "/nowhere" None world in
  fst r = Raise (OSError "/nowhere") /\
  count_ev is_fits_open (trace (snd r)) = 50%nat /\
  count_ev is_sleep (trace (snd r)) = 49%nat.
Proof. vm_compute. repeat split. Qed.

(** The whole run over the sample world: the first URL fails, the two
    others give one data line each, last first. *)
Example run_ex :
  let r := write_metadata_table last_first (input_fn_of 1) (output_fn_of 1) world in
  let record url :=
    expected_record url 4 primary table aperture (PInt 3913) [0; 1; 3; 3; 0; -1] in
  fst r = Ok tt /\
  fs (snd r) !! output_fn_of 1 =
    Some (lines_text [csv_line (record url_m); csv_line (record url_a)]) /\
  failures (trace (snd r)) = 1%nat.
Proof. vm_compute. repeat split. Qed.

End SanityChecks.

(* ===================================================================== *)
(** * Facts about the string helpers *)
(* ===================================================================== *)

Section StringFacts.

Lemma mem_app c a b : mem c (a +:+ b) = mem c a || mem c b.
Proof.
  induction a as [|d a IH]; simpl; [reflexivity|].
  destruct (Ascii.eqb c d); simpl; auto.
Qed.




Lemma one_line_app_inv a b : one_line (a +:+ b) -> one_line a /\ one_line b.
Proof.
  unfold one_line. rewrite mem_app. intros H.
  apply orb_false_iff in H. exact H.
Qed.


(** [basename] keeps a suffix of the path and that suffix has no slash. *)
Lemma basename_no_slash p : mem slash (basename p) = false.
Proof.
  induction p as [|c p IH]; [reflexivity|].
  cbn [basename]. destruct (mem slash (String c p)) eqn:E; [exact IH | exact E].
Qed.






(** A final line terminator is stripped. *)
Lemma rstrip_snoc_space s c : is_space c = true -> rstrip (s +:+ String c EmptyString) = rstrip s.
Proof.
  intros Hc. induction s as [|d s IH]; simpl.
  - rewrite Hc. reflexivity.
  - rewrite IH. reflexivity.
Qed.

Lemma lstrip_snoc_space s c :
  is_space c = true ->
  lstrip (s +:+ String c EmptyString) =
    match lstrip s with
    | EmptyString => EmptyString
    | t => t +:+ String c EmptyString
    end.
Proof.
  intros Hc. induction s as [|d s IH]; simpl.
  - rewrite Hc. reflexivity.
  - destruct (is_space d); [exact IH | reflexivity].
Qed.




Lemma append_assoc_str a b c : (a +:+ b) +:+ c = a +:+ (b +:+ c).
Proof.
  induction a as [|x a IH]; [reflexivity|].
  change (String x a +:+ b) with (String x (a +:+ b)).
  change (String x (a +:+ b) +:+ c) with (String x ((a +:+ b) +:+ c)).
  rewrite IH. reflexivity.
Qed.

Lemma append_nil_r_str a : a +:+ EmptyString = a.
Proof.
  induction a as [|x a IH]; [reflexivity|].
  change (String x a +:+ EmptyString) with (String x (a +:+ EmptyString)).
  rewrite IH. reflexivity.
Qed.

Lemma prefix_app a b : String.prefix a (a +:+ b) = true.
Proof.
  induction a as [|c a IH]; [destruct b; reflexivity|].
  change (String c a +:+ b) with (String c (a +:+ b)). cbn [String.prefix].
  destruct (ascii_dec c c); [exact IH | contradiction].
Qed.

End StringFacts.

Section MoreStringFacts.

Lemma lstrip_shape s :
  lstrip s = EmptyString \/ exists c r, lstrip s = String c r /\ is_space c = false.
Proof.
  induction s as [|c s IH]; [left; reflexivity|].
  cbn [lstrip]. destruct (is_space c) eqn:E; [exact IH|]. right. eauto.
Qed.

Lemma rstrip_keeps_head c r :
  is_space c = false -> exists r', rstrip (String c r) = String c r'.
Proof.
  intros Hc. cbn [rstrip]. destruct (rstrip r); [rewrite Hc|]; eauto.
Qed.

Lemma rstrip_idem s : rstrip (rstrip s) = rstrip s.
Proof.
  induction s as [|c s IH]; [reflexivity|].
  cbn [rstrip]. destruct (rstrip s) as [|d t] eqn:E.
  - destruct (is_space c) eqn:Hc; [reflexivity|]. cbn [rstrip]. rewrite Hc. reflexivity.
  - cbn [rstrip] in IH |- *. cbn [rstrip]. rewrite IH. reflexivity.
Qed.

Lemma strip_idem s : strip (strip s) = strip s.
Proof.
  unfold strip. destruct (lstrip_shape s) as [-> | (c & r & -> & Hc)]; [reflexivity|].
  destruct (rstrip_keeps_head c r Hc) as (r' & Hr). rewrite Hr.
  cbn [lstrip]. rewrite Hc, <- Hr. apply rstrip_idem.
Qed.

Lemma strip_snoc_space s c :
  is_space c = true -> strip (s +:+ String c EmptyString) = strip s.
Proof.
  intros Hc. unfold strip. rewrite (lstrip_snoc_space _ _ Hc).
  destruct (lstrip s) as [|d t]; [reflexivity|]. apply rstrip_snoc_space, Hc.
Qed.

Lemma basename_no_slash_id p : mem slash p = false -> basename p = p.
Proof. intros H. destruct p as [|c p]; [reflexivity|]. cbn [basename]. rewrite H. reflexivity. Qed.

Lemma basename_last d name :
  mem slash name = false -> basename (d +:+ "/" +:+ name) = name.
Proof.
  intros Hn. induction d as [|c d IH].
  - change (basename (String slash name) = name).
    cbn [basename mem]. rewrite Ascii.eqb_refl. apply basename_no_slash_id, Hn.
  - change (String c d +:+ "/" +:+ name) with (String c (d +:+ "/" +:+ name)).
    cbn [basename].
    replace (mem slash (String c (d +:+ "/" +:+ name))) with true; [exact IH|].
    symmetry. cbn [mem]. destruct (Ascii.eqb slash c); [reflexivity|].
    rewrite mem_app. apply orb_true_iff. right. reflexivity.
Qed.

Lemma replace_from_skip a old new : forall rest,
  replace_from (String.length a) old new (a +:+ rest) = replace_from O old new rest.
Proof.
  induction a as [|c a IH]; intros rest; [reflexivity|].
  change (String c a +:+ rest) with (String c (a +:+ rest)).
  cbn [String.length replace_from]. apply IH.
Qed.

Lemma replace_occurrence c old new rest :
  replace (String c old) new (String c old +:+ rest) = new +:+ replace (String c old) new rest.
Proof.
  unfold replace.
  change (String c old +:+ rest) with (String c (old +:+ rest)).
  cbn [replace_from].
  change (String c (old +:+ rest)) with (String c old +:+ rest).
  rewrite prefix_app. cbn [String.length Nat.pred].
  rewrite replace_from_skip. reflexivity.
Qed.

Lemma replace_absent old new s : contains old s = false -> replace old new s = s.
Proof.
  unfold replace. induction s as [|c s IH]; intros H; [reflexivity|].
  cbn [contains] in H. apply orb_false_iff in H. destruct H as [Hp Hc].
  cbn [replace_from]. rewrite Hp, (IH Hc). reflexivity.
Qed.

Lemma readlines_from_concat s : forall cur,
  cat_lines (readlines_from cur s) = cur +:+ s.
Proof.
  induction s as [|c s IH]; intros cur; cbn [readlines_from].
  - destruct cur; [reflexivity|]. cbn [cat_lines]. rewrite append_nil_r_str. reflexivity.
  - destruct (Ascii.eqb c nl).
    + cbn [cat_lines]. rewrite IH, append_assoc_str. reflexivity.
    + rewrite IH, append_assoc_str. reflexivity.
Qed.

Lemma count_char_app c a b : count_char c (a +:+ b) = (count_char c a + count_char c b)%nat.
Proof.
  induction a as [|d a IH]; [reflexivity|].
  change (String d a +:+ b) with (String d (a +:+ b)). cbn [count_char]. rewrite IH. lia.
Qed.

Lemma count_char_absent c s : mem c s = false -> count_char c s = 0%nat.
Proof.
  induction s as [|d s IH]; [reflexivity|]. cbn [mem count_char].
  destruct (Ascii.eqb c d); [discriminate|]. exact IH.
Qed.

(** Separators of a joined line: one less than cells, plus the ones the
    cells bring along. *)
Lemma count_comma_join x l :
  count_char comma (join "," (x :: l)) =
  (List.length l + fold_right (fun y n => count_char comma y + n) 0 (x :: l))%nat.
Proof.
  unfold join. revert x. induction l as [|y l IH]; intros x.
  - cbn. lia.
  - change (String.concat "," (x :: y :: l))
      with (x +:+ "," +:+ String.concat "," (y :: l)).
    rewrite !count_char_app, IH. cbn. lia.
Qed.

End MoreStringFacts.

(** The paths of a worker are left alone by [strip], so that the path
    [TargetPixelFile] opens and the path it keeps are the same. *)
Section PathFacts.

Lemma strip_shape s :
  strip s = EmptyString \/ exists c r, strip s = String c r /\ is_space c = false.
Proof.
  unfold strip. destruct (lstrip_shape s) as [-> | (c & r & -> & Hc)]; [left; reflexivity|].
  destruct (rstrip_keeps_head c r Hc) as (r' & ->). right. eauto.
Qed.

Lemma lstrip_strip s : lstrip (strip s) = strip s.
Proof.
  destruct (strip_shape s) as [-> | (c & r & -> & Hc)]; [reflexivity|].
  cbn [lstrip]. rewrite Hc. reflexivity.
Qed.

Lemma rstrip_strip s : rstrip (strip s) = strip s.
Proof. unfold strip. apply rstrip_idem. Qed.

Lemma rstrip_app_id a b :
  rstrip b = b -> b <> EmptyString -> rstrip (a +:+ b) = a +:+ b.
Proof.
  intros Hb Hne. induction a as [|c a IH]; [exact Hb|].
  change (String c a +:+ b) with (String c (a +:+ b)). cbn [rstrip]. rewrite IH.
  destruct (a +:+ b) eqn:E; [|reflexivity].
  destruct a; [change (b = EmptyString) in E; contradiction | discriminate].
Qed.

Lemma rstrip_suffix a b : rstrip (a +:+ b) = a +:+ b -> rstrip b = b.
Proof.
  induction a as [|c a IH]; [auto|].
  change (String c a +:+ b) with (String c (a +:+ b)). cbn [rstrip].
  destruct (rstrip (a +:+ b)) as [|d t] eqn:E.
  - destruct (is_space c); [discriminate|]. intros H. inversion H as [H1].
    destruct a; [change (EmptyString = b) in H1; rewrite <- H1; reflexivity | discriminate].
  - intros H. inversion H as [H1]. apply IH. exact H1.
Qed.

Lemma basename_suffix p : exists d, p = d +:+ basename p.
Proof.
  induction p as [|c p (d & IH)]; [exists EmptyString; reflexivity|].
  cbn [basename]. destruct (mem slash (String c p)).
  - exists (String c d). change (String c d +:+ basename p) with (String c (d +:+ basename p)).
    rewrite <- IH. reflexivity.
  - exists EmptyString. reflexivity.
Qed.

Lemma lstrip_length s : (String.length (lstrip s) <= String.length s)%nat.
Proof.
  induction s as [|c s IH]; [reflexivity|].
  cbn [lstrip]. destruct (is_space c); cbn [String.length]; lia.
Qed.

Lemma lstrip_head c r : lstrip (String c r) = String c r -> is_space c = false.
Proof.
  cbn [lstrip]. destruct (is_space c); [|reflexivity].
  intros H. pose proof (lstrip_length r) as L. rewrite H in L. cbn [String.length] in L. lia.
Qed.

Lemma lstrip_app_head c a b :
  is_space c = false -> lstrip (String c a +:+ b) = String c a +:+ b.
Proof.
  intros H. change (String c a +:+ b) with (String c (a +:+ b)).
  cbn [lstrip]. rewrite H. reflexivity.
Qed.

Lemma append_not_nil a b : a <> EmptyString -> a +:+ b <> EmptyString.
Proof. destruct a; [congruence | discriminate]. Qed.

Lemma replace_from_nil old new s :
  new <> EmptyString -> replace_from O old new s = EmptyString -> s = EmptyString.
Proof.
  intros Hn. destruct s as [|c r]; [reflexivity|]. cbn [replace_from].
  destruct (String.prefix old (String c r)); [|discriminate].
  intros H. exfalso. exact (append_not_nil _ _ Hn H).
Qed.

Lemma rstrip_replace_from old new :
  new <> EmptyString -> rstrip new = new ->
  forall s k, rstrip s = s -> rstrip (replace_from k old new s) = replace_from k old new s.
Proof.
  intros Hn Hnew. induction s as [|c r IH]; intros k Hs; [reflexivity|].
  assert (Hr : rstrip r = r) by (apply (rstrip_suffix (String c EmptyString) r); exact Hs).
  cbn [replace_from]. destruct k as [|k]; [|apply IH, Hr].
  destruct (String.prefix old (String c r)).
  - pose proof (IH (Nat.pred (String.length old)) Hr) as HR.
    destruct (replace_from (Nat.pred (String.length old)) old new r) eqn:E.
    + rewrite append_nil_r_str. exact Hnew.
    + apply rstrip_app_id; [exact HR | discriminate].
  - pose proof (IH O Hr) as HR.
    destruct (replace_from O old new r) eqn:E.
    + apply replace_from_nil in E; [|exact Hn]. subst r. exact Hs.
    + apply (rstrip_app_id (String c EmptyString)); [exact HR | discriminate].
Qed.

Lemma strip_local_path url : strip (local_path (strip url)) = local_path (strip url).
Proof.
  set (u := strip url).
  assert (Hl : lstrip (local_path u) = local_path u).
  { unfold local_path, replace. pose proof (lstrip_strip url) as H. fold u in H.
    destruct u as [|c r]; [reflexivity|]. cbn [replace_from].
    destruct (String.prefix MAST_PREFIX (String c r)).
    - unfold DATA_STORE. apply lstrip_app_head. reflexivity.
    - cbn [lstrip]. rewrite (lstrip_head c r H). reflexivity. }
  unfold strip. rewrite Hl. unfold local_path, replace.
  apply rstrip_replace_from; [discriminate | reflexivity | apply rstrip_strip].
Qed.

Lemma scratch_path_eq u : scratch_path u = TMPDIR +:+ basename u.
Proof.
  unfold scratch_path, path_join.
  pose proof (basename_no_slash u) as Hb.
  destruct (basename u) as [|c b]; [reflexivity|].
  cbn [mem] in Hb. rewrite (Ascii.eqb_sym c slash).
  destruct (Ascii.eqb slash c); [discriminate | reflexivity].
Qed.

Lemma strip_scratch_path url : strip (scratch_path (strip url)) = scratch_path (strip url).
Proof.
  rewrite scratch_path_eq.
  destruct (basename_suffix (strip url)) as (d & Hd).
  pose proof (rstrip_strip url) as Hr. rewrite Hd in Hr. apply rstrip_suffix in Hr.
  set (b := basename (strip url)) in *. clearbody b. clear Hd.
  unfold strip, TMPDIR. rewrite lstrip_app_head by reflexivity.
  destruct b; [reflexivity|].
  apply rstrip_app_id; [exact Hr | discriminate].
Qed.

End PathFacts.

(* ===================================================================== *)
(** * Facts about metadata extraction *)
(* ===================================================================== *)

Section MetadataFacts.

Ltac unfold_metadata :=
  unfold get_metadata, getsize, header_loop, header, attr_fits, hdu_at,
    header_getitem, count_positive, bind, get, ret, raise.

(** Under its preconditions the extraction returns the expected record
    and leaves the world alone. *)
Lemma get_metadata_ok self w size h0 h1 h2 cad pix :
  extractable self w size h0 h1 h2 cad pix ->
  get_metadata self w =
    (Ok (expected_record (tpf_url self) size h0 h1 h2 cad pix), w).
Proof.
  intros (f & c & Hf & H0 & H1 & H2 & Hc & -> & Hcad & Hpix).
  unfold_metadata.
  rewrite Hc, Hf. cbn. rewrite H0, H1, H2. cbn. rewrite Hcad, Hpix. cbn.
  reflexivity.
Qed.

(** The extraction never diverges and never changes the world; when it
    returns, its preconditions held. *)
Lemma get_metadata_cases self w :
  (exists size h0 h1 h2 cad pix, extractable self w size h0 h1 h2 cad pix) \/
  (exists e, get_metadata self w = (Raise e, w)).
Proof.
  unfold extractable. unfold_metadata.
  destruct (fs w !! tpf_path self) as [c|] eqn:Hc; [|right; eauto].
  destruct (tpf_fits self) as [f|] eqn:Hf; cbn; [|right; eauto].
  destruct (f !! 0%nat) as [h0|] eqn:H0; cbn; [|right; eauto].
  destruct (f !! 1%nat) as [h1|] eqn:H1; cbn; [|right; eauto].
  destruct (card_lookup "NAXIS2" (hdr h1)) as [cad|] eqn:Hcad; cbn; [|right; eauto].
  destruct (f !! 2%nat) as [h2|] eqn:H2; cbn; [|right; eauto].
  destruct (data h2) as [pix|] eqn:Hpix; cbn; [|right; eauto].
  left. exists (N.of_nat (String.length c)), h0, h1, h2, cad, pix, f, c. auto 10.
Qed.

Lemma get_metadata_inv self w meta w' :
  get_metadata self w = (Ok meta, w') ->
  exists size h0 h1 h2 cad pix,
    extractable self w size h0 h1 h2 cad pix /\
    meta = expected_record (tpf_url self) size h0 h1 h2 cad pix /\ w' = w.
Proof.
  intros H. destruct (get_metadata_cases self w)
    as [(size & h0 & h1 & h2 & cad & pix & Hx) | (e & He)].
  - exists size, h0, h1, h2, cad, pix. split; [exact Hx|].
    rewrite (get_metadata_ok _ _ _ _ _ _ _ _ Hx) in H. inversion H. auto.
  - rewrite He in H. discriminate.
Qed.

Lemma expected_record_keys url size h0 h1 h2 cad pix :
  od_keys (expected_record url size h0 h1 h2 cad pix) = FIELD_KEYS.
Proof. reflexivity. Qed.

Lemma field_keys_header : join "," (map lower FIELD_KEYS) = SPEC_HEADER.
Proof. reflexivity. Qed.

Lemma get_csv_header_ok self w size h0 h1 h2 cad pix :
  extractable self w size h0 h1 h2 cad pix ->
  get_csv_header self w = (Ok SPEC_HEADER, w).
Proof.
  intros Hx. unfold get_csv_header, bind.
  rewrite (get_metadata_ok _ _ _ _ _ _ _ _ Hx). reflexivity.
Qed.

Lemma get_csv_row_ok self w size h0 h1 h2 cad pix :
  extractable self w size h0 h1 h2 cad pix ->
  get_csv_row self w =
    (Ok (csv_line (expected_record (tpf_url self) size h0 h1 h2 cad pix)), w).
Proof.
  intros Hx. unfold get_csv_row, bind.
  rewrite (get_metadata_ok _ _ _ _ _ _ _ _ Hx). reflexivity.
Qed.

Lemma get_csv_header_raise self w e :
  get_metadata self w = (Raise e, w) -> get_csv_header self w = (Raise e, w).
Proof. intros H. unfold get_csv_header, bind. rewrite H. reflexivity. Qed.

Lemma get_csv_row_raise self w e :
  get_metadata self w = (Raise e, w) -> get_csv_row self w = (Raise e, w).
Proof. intros H. unfold get_csv_row, bind. rewrite H. reflexivity. Qed.

End MetadataFacts.

Section WorldFacts.

Lemma evolve_refl changed w : evolve changed [] w w.
Proof. unfold evolve. rewrite app_nil_r. auto. Qed.

Lemma evolve_trans changed evs1 evs2 w w1 w2 :
  evolve changed evs1 w w1 -> evolve changed evs2 w1 w2 ->
  evolve changed (evs1 ++ evs2) w w2.
Proof.
  intros (He1 & Ht1 & Hf1) (He2 & Ht2 & Hf2). unfold evolve.
  rewrite He2, He1, Ht2, Ht1, app_assoc. repeat split.
  intros p Hp. rewrite Hf2, Hf1; auto.
Qed.

Lemma evolve_weaken (c1 c2 : string -> Prop) evs w w' :
  (forall p, c1 p -> c2 p) -> evolve c1 evs w w' -> evolve c2 evs w w'.
Proof.
  intros Hc (He & Ht & Hf). repeat split; auto.
Qed.

Lemma evolve_event changed e w : evolve changed [e] w (add_event e w).
Proof. unfold evolve. cbn. auto. Qed.

Lemma evolve_fs_eq evs w w' : evolve (fun _ => False) evs w w' -> fs w' = fs w.
Proof. intros (_ & _ & Hf). apply map_eq. intros p. apply Hf. tauto. Qed.


Lemma fits_open_spec path w :
  exists r w', fits_open path w = (r, w') /\
    evolve no_change [EvFitsOpen path] w w' /\
    match r with
    | Ok hdus => exists c, fs w !! path = Some c /\ decode (env w) c = inr hdus
    | Raise _ => True
    | Diverge => False
    end.
Proof.
  unfold fits_open, bind, emit, modify, get, ret, raise. cbn.
  destruct (faults w) as [|[e|] r] eqn:Hfa; cbn.
  - destruct (fs w !! path) as [c|] eqn:Hc; [destruct (decode (env w) c) eqn:Hd|];
      eexists _, _; (split; [reflexivity|]); (split; [apply evolve_event|]); eauto.
  - eexists _, _; (split; [reflexivity|]). split; [|exact I].
    unfold evolve. cbn. auto.
  - destruct (fs w !! path) as [c|] eqn:Hc; [destruct (decode (env w) c) eqn:Hd|];
      eexists _, _; (split; [reflexivity|]); (split; [unfold evolve; cbn; auto|]); eauto.
Qed.

Lemma open_attempts_done fuel path sf w :
  open_attempts fuel path 99 sf w = (Ok sf, w).
Proof. destruct fuel; reflexivity. Qed.

Lemma open_attempts_spec fuel path : forall attempt sf w,
  1 <= attempt <= MAX_ATTEMPTS ->
  (Z.to_nat (MAX_ATTEMPTS - attempt) < fuel)%nat ->
  exists r w' evs, open_attempts fuel path attempt sf w = (r, w') /\
    evolve no_change (EvFitsOpen path :: evs) w w' /\
    Forall (fun e => is_open_event path e = true) evs /\
    match r with
    | Ok o => exists c hdus, o = Some hdus /\ fs w !! path = Some c /\ decode (env w) c = inr hdus
    | Raise _ => True
    | Diverge => False
    end.
Proof.
  induction fuel as [|fuel IH]; intros attempt sf w Ha Hfuel; [lia|].
  cbn [open_attempts].
  destruct (attempt <=? MAX_ATTEMPTS) eqn:Hle; [|lia].
  unfold try_with.
  destruct (fits_open_spec path w) as (r1 & w1 & Ho & Hev & Hr). rewrite Ho.
  destruct r1 as [hdus|e|]; [| |contradiction].
  - rewrite open_attempts_done. destruct Hr as (c & Hc & Hd).
    eexists _, _, []. split; [reflexivity|]. split; [exact Hev|].
    split; [constructor|]. eauto.
  - destruct (attempt =? MAX_ATTEMPTS) eqn:Hmax.
    + unfold bind, log, emit, modify, raise. cbn.
      eexists _, _, [_]. split; [reflexivity|].
      split; [exact (evolve_trans _ _ _ _ _ _ Hev (evolve_event _ _ _))|].
      split; [repeat constructor | exact I].
    + destruct (IH (attempt + 1) sf
                  (add_event (EvSleep SLEEP_BETWEEN_ATTEMPTS)
                     (add_event (EvLog WARNING (NowSleeping SLEEP_BETWEEN_ATTEMPTS))
                        (add_event (EvLog WARNING (AttemptFailed path attempt e)) w1))))
        as (r & w' & evs & Hrun & Hev' & Hall & Hres); [lia | lia |].
      unfold bind, log, sleep, emit, modify. cbn. rewrite Hrun.
      eexists r, w', (_ :: _ :: _ :: EvFitsOpen path :: evs).
      split; [destruct r; reflexivity|].
      split.
      { apply (evolve_trans _ [_] _ _ _ _ Hev).
        apply (evolve_trans _ [_] _ _ _ _ (evolve_event _ _ _)).
        apply (evolve_trans _ [_] _ _ _ _ (evolve_event _ _ _)).
        apply (evolve_trans _ [_] _ _ _ _ (evolve_event _ _ _)). exact Hev'. }
      split.
      { repeat constructor; [cbn; apply String.eqb_refl | exact Hall]. }
      destruct r as [o| |]; auto.
      destruct Hres as (c & hdus & -> & Hc & Hd). cbn in Hc, Hd.
      destruct Hev as (He1 & _ & Hf1). rewrite He1 in Hd. rewrite Hf1 in Hc by (unfold no_change; tauto).
      eauto.
Qed.
End WorldFacts.

Section RetryFacts.

Lemma count_ev_app f a b : count_ev f (a ++ b) = (count_ev f a + count_ev f b)%nat.
Proof. unfold count_ev. rewrite List.filter_app, length_app. reflexivity. Qed.

(** The retry loop of [__init__]: at most [MAX_ATTEMPTS] calls of
    [fits.open], one sleep of [SLEEP_BETWEEN_ATTEMPTS] seconds between
    two calls, and an exception only out of the last allowed call. *)
Lemma open_attempts_retry_shape fuel path : forall attempt sf w,
  1 <= attempt <= MAX_ATTEMPTS ->
  (Z.to_nat (MAX_ATTEMPTS - attempt) < fuel)%nat ->
  exists r w' evs, open_attempts fuel path attempt sf w = (r, w') /\
    trace w' = (trace w ++ evs)%list /\
    (1 <= count_ev is_fits_open evs)%nat /\
    Z.of_nat (count_ev is_fits_open evs) <= MAX_ATTEMPTS - attempt + 1 /\
    S (count_ev is_sleep evs) = count_ev is_fits_open evs /\
    Forall (fun e => is_sleep e = true -> e = EvSleep SLEEP_BETWEEN_ATTEMPTS) evs /\
    (forall e, r = Raise e ->
       Z.of_nat (count_ev is_fits_open evs) = MAX_ATTEMPTS - attempt + 1).
Proof.
  induction fuel as [|fuel IH]; intros attempt sf w Ha Hfuel; [lia|].
  cbn [open_attempts].
  destruct (attempt <=? MAX_ATTEMPTS) eqn:Hle; [|lia].
  unfold try_with.
  destruct (fits_open_spec path w) as (r1 & w1 & Ho & (_ & Ht1 & _) & Hr). rewrite Ho.
  destruct r1 as [hdus|e|]; [| |contradiction].
  - rewrite open_attempts_done.
    exists (Ok (Some hdus)), w1, [EvFitsOpen path]. split; [reflexivity|].
    split; [exact Ht1|]. cbn. repeat split; try lia; try discriminate.
    repeat constructor. discriminate.
  - destruct (attempt =? MAX_ATTEMPTS) eqn:Hmax.
    + unfold bind, log, emit, modify, raise. cbn.
      eexists _, _, [EvFitsOpen path; EvLog ERROR (MaxAttemptsReached path)].
      split; [reflexivity|]. split; [cbn; rewrite Ht1, <- app_assoc; reflexivity|].
      cbn. repeat split; try lia.
      repeat constructor; discriminate.
    + destruct (IH (attempt + 1) sf
                  (add_event (EvSleep SLEEP_BETWEEN_ATTEMPTS)
                     (add_event (EvLog WARNING (NowSleeping SLEEP_BETWEEN_ATTEMPTS))
                        (add_event (EvLog WARNING (AttemptFailed path attempt e)) w1))))
        as (r & w' & evs & Hrun & Ht & Hone & Hmany & Hsleep & Hall & Hlast); [lia | lia |].
      unfold bind, log, sleep, emit, modify. cbn. rewrite Hrun.
      exists r, w',
        ([EvFitsOpen path; EvLog WARNING (AttemptFailed path attempt e);
          EvLog WARNING (NowSleeping SLEEP_BETWEEN_ATTEMPTS);
          EvSleep SLEEP_BETWEEN_ATTEMPTS] ++ evs)%list.
      split; [destruct r; reflexivity|].
      split; [rewrite Ht; cbn; rewrite Ht1, <- !app_assoc; reflexivity|].
      rewrite !count_ev_app.
      change (count_ev is_fits_open [EvFitsOpen path; EvLog WARNING (AttemptFailed path attempt e);
          EvLog WARNING (NowSleeping SLEEP_BETWEEN_ATTEMPTS);
          EvSleep SLEEP_BETWEEN_ATTEMPTS]) with 1%nat.
      change (count_ev is_sleep [EvFitsOpen path; EvLog WARNING (AttemptFailed path attempt e);
          EvLog WARNING (NowSleeping SLEEP_BETWEEN_ATTEMPTS);
          EvSleep SLEEP_BETWEEN_ATTEMPTS]) with 1%nat.
      repeat split; try lia.
      * apply Forall_app. split; [|exact Hall].
        repeat constructor; try discriminate.
      * intros e' He'. specialize (Hlast e' He'). lia.
Qed.

End RetryFacts.

Section MoreRetryFacts.

Lemma fits_open_fault path w e r :
  faults w = Some e :: r ->
  fits_open path w = (Raise e, set_faults r (add_event (EvFitsOpen path) w)).
Proof.
  intros H. unfold fits_open, bind, emit, modify, get, ret, raise. cbn. rewrite H. reflexivity.
Qed.

Lemma fits_open_ok path w c hdus :
  no_fault_next (faults w) ->
  fs w !! path = Some c -> decode (env w) c = inr hdus ->
  exists w', fits_open path w = (Ok hdus, w') /\
    trace w' = (trace w ++ [EvFitsOpen path])%list /\
    faults w' = tl (faults w) /\ fs w' = fs w /\ env w' = env w.
Proof.
  intros Hn Hc Hd. unfold fits_open, bind, emit, modify, get, ret, raise. cbn.
  destruct (faults w) as [|[e|] r] eqn:Hf; [| contradiction |]; cbn; rewrite Hc, Hd;
    eexists; (split; [reflexivity|]); cbn; rewrite ?Hf; auto.
Qed.

Lemma open_attempts_absorbs path c hdus : forall es attempt fuel sf w rest,
  1 <= attempt -> attempt + Z.of_nat (List.length es) <= MAX_ATTEMPTS ->
  (Z.to_nat (MAX_ATTEMPTS - attempt) < fuel)%nat ->
  faults w = (map Some es ++ rest)%list -> no_fault_next rest ->
  fs w !! path = Some c -> decode (env w) c = inr hdus ->
  exists w' evs,
    open_attempts fuel path attempt sf w = (Ok (Some hdus), w') /\
    trace w' = (trace w ++ evs)%list /\
    count_ev is_fits_open evs = S (List.length es) /\
    count_ev is_sleep evs = List.length es /\
    faults w' = tl rest /\ fs w' = fs w /\ env w' = env w.
Proof.
  induction es as [|e es IH]; intros attempt fuel sf w rest Ha Hlen Hfuel Hf Hn Hc Hd.
  - destruct fuel as [|fuel]; [lia|]. cbn [open_attempts].
    destruct (attempt <=? MAX_ATTEMPTS) eqn:Hle; [|cbn in Hlen; lia].
    unfold try_with. cbn in Hf.
    destruct (fits_open_ok path w c hdus) as (w' & Ho & Ht & Hfa & Hfs & Henv);
      [rewrite Hf; exact Hn | exact Hc | exact Hd |].
    rewrite Ho, open_attempts_done. exists w', [EvFitsOpen path].
    rewrite Hfa, Hf. auto 10.
  - destruct fuel as [|fuel]; [lia|]. cbn [open_attempts].
    cbn [List.length] in Hlen.
    destruct (attempt <=? MAX_ATTEMPTS) eqn:Hle; [|lia].
    destruct (attempt =? MAX_ATTEMPTS) eqn:Hmax; [lia|].
    unfold try_with. cbn [map app] in Hf.
    rewrite (fits_open_fault path w e _ Hf).
    unfold bind, log, sleep, emit, modify. cbn [level_rank LOG_LEVEL Nat.leb].
    match goal with |- context [open_attempts fuel path (attempt + 1) sf ?w2] =>
      destruct (IH (attempt + 1) fuel sf w2 rest) as (w' & evs & Hrun & Ht & Ho & Hs & Hfa & Hfs & Henv);
        [lia | lia | lia | reflexivity | exact Hn | exact Hc | exact Hd |]
    end.
    rewrite Hrun.
    exists w', ([EvFitsOpen path; EvLog WARNING (AttemptFailed path attempt e);
                 EvLog WARNING (NowSleeping SLEEP_BETWEEN_ATTEMPTS);
                 EvSleep SLEEP_BETWEEN_ATTEMPTS] ++ evs)%list.
    split; [reflexivity|].
    split; [rewrite Ht; cbn; rewrite <- !app_assoc; reflexivity|].
    rewrite !count_ev_app, Ho, Hs. cbn. auto.
Qed.

End MoreRetryFacts.

Section DownloadFacts.

Lemma read_loop_content p fault : forall chunks w c0,
  fs w !! p = Some c0 ->
  exists w',
    read_loop p chunks fault w = (read_outcome chunks fault, w') /\
    fs w' = <[p := c0 +:+ cat_lines (written_chunks chunks)]> (fs w) /\
    trace w' = trace w /\ env w' = env w /\ faults w' = faults w.
Proof.
  induction chunks as [|chunk rest IH]; intros w c0 Hc; cbn [read_loop read_outcome written_chunks].
  - exists w. split; [destruct fault; reflexivity|].
    cbn [cat_lines]. rewrite append_nil_r_str, insert_id by exact Hc. auto.
  - destruct chunk as [|a chunk].
    + exists w. split; [reflexivity|].
      cbn [cat_lines]. rewrite append_nil_r_str, insert_id by exact Hc. auto.
    + unfold bind, file_write, modify.
      set (w1 := set_fs (fun m => <[p := default EmptyString (m !! p) +:+ String a chunk]> m) w).
      destruct (IH w1 (c0 +:+ String a chunk)) as (w' & Hrun & Hfs & Ht & He & Hf).
      { subst w1. cbn. rewrite Hc. apply lookup_insert_eq. }
      rewrite Hrun. exists w'. split; [destruct (read_outcome rest fault); reflexivity|].
      split; [|auto].
      rewrite Hfs. subst w1. cbn. rewrite Hc. cbn.
      rewrite insert_insert_eq, append_assoc_str. reflexivity.
Qed.

Lemma download_file_content url p w chunks fault :
  net (env w) url = Stream chunks fault ->
  create_error (env w) p = None ->
  exists w',
    download_file url p w = (read_outcome chunks fault, w') /\
    fs w' = <[p := cat_lines (written_chunks chunks)]> (fs w) /\
    trace w' = (trace w ++ [EvUrlopen url; EvCreate p])%list /\
    env w' = env w /\ faults w' = faults w.
Proof.
  intros Hnet Hcreate.
  unfold download_file, urlopen, open_w, bind, emit, modify, get, ret, raise. cbn.
  rewrite Hnet. cbn. rewrite Hcreate. cbn.
  match goal with |- context [read_loop p chunks fault ?w0] =>
    destruct (read_loop_content p fault chunks w0 EmptyString)
      as (w' & Hrun & Hfs & Ht & He & Hf); [cbn; apply lookup_insert_eq|] end.
  rewrite Hrun. exists w'. split; [destruct (read_outcome chunks fault); reflexivity|].
  rewrite Hfs, Ht, He, Hf. cbn. rewrite insert_insert_eq, <- app_assoc.
  change (EmptyString +:+ ?x) with x. auto.
Qed.

(** A download that returned: the connection was accepted, the file
    could be created, the body came to its end and the file holds it. *)
Lemma download_file_ok_inv url p w w0 :
  download_file url p w = (Ok tt, w0) ->
  exists chunks fault,
    net (env w) url = Stream chunks fault /\
    create_error (env w) p = None /\
    read_outcome chunks fault = Ok tt /\
    fs w0 = <[p := cat_lines (written_chunks chunks)]> (fs w) /\
    env w0 = env w.
Proof.
  intros Hdl.
  destruct (net (env w) url) as [e|chunks fault] eqn:Hnet.
  - revert Hdl. unfold download_file, urlopen, bind, emit, modify, get, raise. cbn.
    rewrite Hnet. discriminate.
  - destruct (create_error (env w) p) as [e|] eqn:Hc.
    + revert Hdl.
      unfold download_file, urlopen, open_w, bind, emit, modify, get, ret, raise. cbn.
      rewrite Hnet. cbn. rewrite Hc. cbn. discriminate.
    + destruct (download_file_content url p w chunks fault Hnet Hc)
        as (w' & Hrun & Hfs & _ & He & _).
      rewrite Hrun in Hdl. inversion Hdl as [[Hr Hw]]. subst w'.
      exists chunks, fault. auto 10.
Qed.

End DownloadFacts.

Section WorkerFacts.

Lemma TargetPixelFile_init_spec p u w :
  exists r w' evs, TargetPixelFile_init p (Some u) w = (r, w') /\
    evolve no_change (EvFitsOpen p :: evs) w w' /\
    Forall (fun e => is_open_event p e = true) evs /\
    match r with
    | Ok tpf =>
        tpf_path tpf = strip p /\ tpf_url tpf = u /\
        exists c hdus, tpf_fits tpf = Some hdus /\ fs w !! p = Some c /\
                       decode (env w) c = inr hdus
    | Raise _ => True
    | Diverge => False
    end.
Proof.
  unfold TargetPixelFile_init, bind.
  destruct (open_attempts_spec LOOP_FUEL p 1 None w)
    as (r & w' & evs & Hrun & Hev & Hall & Hr); [unfold MAX_ATTEMPTS; lia | vm_compute; lia |].
  rewrite Hrun. destruct r as [o|e|]; [| |contradiction].
  - eexists _, _, evs. split; [reflexivity|]. split; [exact Hev|]. split; [exact Hall|].
    cbn. destruct Hr as (c & hdus & -> & Hc & Hd). eauto 10.
  - eexists _, _, evs. split; [reflexivity|]. auto.
Qed.

Lemma file_write_evolve p c w :
  evolve (fun q => q = p) [] w (set_fs (fun m => <[p := default EmptyString (m !! p) +:+ c]> m) w).
Proof.
  unfold evolve. cbn. rewrite app_nil_r. repeat split.
  intros q Hq. apply lookup_insert_ne. congruence.
Qed.

Lemma read_loop_spec p chunks fault : forall w,
  exists r w', read_loop p chunks fault w = (r, w') /\
    evolve (fun q => q = p) [] w w' /\ r <> Diverge.
Proof.
  induction chunks as [|chunk rest IH]; intros w; cbn [read_loop].
  - destruct fault; eexists _, _; (split; [reflexivity|]);
      (split; [apply evolve_refl | discriminate]).
  - destruct chunk as [|a chunk].
    + eexists _, _; (split; [reflexivity|]); (split; [apply evolve_refl | discriminate]).
    + unfold bind, file_write, modify.
      destruct (IH (set_fs (fun m => <[p := default EmptyString (m !! p) +:+ String a chunk]> m) w))
        as (r & w' & Hrun & Hev & Hr).
      rewrite Hrun. exists r, w'. split; [destruct r; reflexivity|]. split; [|exact Hr].
      change (@nil Event) with (@nil Event ++ [])%list.
      eapply evolve_trans; [apply file_write_evolve | exact Hev].
Qed.

Lemma download_file_spec url p w :
  exists r w' evs, download_file url p w = (r, w') /\
    evolve (fun q => q = p) evs w w' /\
    (evs = [EvUrlopen url] \/ evs = [EvUrlopen url; EvCreate p]) /\
    r <> Diverge.
Proof.
  unfold download_file, urlopen, open_w, bind, emit, modify, get, ret, raise. cbn.
  destruct (net (env w) url) as [e|chunks fault]; cbn.
  - eexists _, _, _. split; [reflexivity|]. split; [apply evolve_event|].
    split; [auto | discriminate].
  - destruct (create_error (env w) p) as [e|]; cbn.
    + eexists _, _, [EvUrlopen url; EvCreate p]. split; [reflexivity|].
      split; [|split; [auto | discriminate]].
      unfold evolve. cbn. rewrite <- app_assoc. auto.
    + match goal with |- context [read_loop p chunks fault ?w0] =>
        destruct (read_loop_spec p chunks fault w0) as (r & w' & Hrun & Hev & Hr) end.
      rewrite Hrun. exists r, w', [EvUrlopen url; EvCreate p].
      split; [destruct r; reflexivity|]. split; [|split; [auto | exact Hr]].
      destruct Hev as (He & Ht & Hf). unfold evolve. rewrite He, Ht. cbn.
      rewrite app_nil_r, <- app_assoc. repeat split.
      intros q Hq. rewrite Hf by exact Hq. cbn. apply lookup_insert_ne. congruence.
Qed.

Lemma unlink_spec p w :
  exists r w', unlink p w = (r, w') /\
    evolve (fun q => q = p) [EvUnlink p] w w' /\
    match r with
    | Ok _ => fs w' !! p = None
    | Raise _ => fs w' = fs w
    | Diverge => False
    end /\
    (unlink_error (env w) p = None -> fs w' !! p = None).
Proof.
  unfold unlink, bind, emit, modify, get, ret, raise. cbn.
  destruct (unlink_error (env w) p) as [e|]; cbn.
  - eexists _, _. split; [reflexivity|]. split; [apply evolve_event|].
    split; [reflexivity | discriminate].
  - destruct (fs w !! p) as [c|] eqn:Hc; cbn.
    + eexists _, _. split; [reflexivity|].
      split; [|split; [|intros _]; cbn; apply lookup_delete_eq].
      unfold evolve. cbn. repeat split. intros q Hq. apply lookup_delete_ne. congruence.
    + eexists _, _. split; [reflexivity|]. split; [apply evolve_event|].
      split; [reflexivity | intros _; exact Hc].
Qed.


Lemma failures_app a b : failures (a ++ b) = (failures a + failures b)%nat.
Proof. unfold failures. rewrite filter_app, length_app. reflexivity. Qed.

Lemma logged_failures_app a b :
  logged_failures (a ++ b) = (logged_failures a ++ logged_failures b)%list.
Proof. unfold logged_failures. apply filter_app. Qed.

Lemma failures_logged t : failures t = List.length (logged_failures t).
Proof. reflexivity. Qed.

Lemma failures_zero t : failures t = 0%nat -> logged_failures t = [].
Proof. rewrite failures_logged. destruct (logged_failures t); [reflexivity | discriminate]. Qed.

Lemma open_events_not_logged p q evs :
  Forall (fun e => is_open_event p e = true) evs ->
  logged_failures (EvFitsOpen q :: evs) = [].
Proof.
  intros H. change (EvFitsOpen q :: evs) with ([EvFitsOpen q] ++ evs)%list.
  rewrite logged_failures_app. change (logged_failures [EvFitsOpen q]) with (@nil Event).
  change (logged_failures evs = []).
  induction H as [|e evs He _ IH]; [reflexivity|].
  change (e :: evs) with ([e] ++ evs)%list. rewrite logged_failures_app, IH.
  destruct e as [[] []| | | | |]; try discriminate; reflexivity.
Qed.

Lemma open_events_no_failure p q evs :
  Forall (fun e => is_open_event p e = true) evs ->
  failures (EvFitsOpen q :: evs) = 0%nat.
Proof.
  intros H. rewrite failures_logged, (open_events_not_logged p q evs H). reflexivity.
Qed.

Lemma open_events_reads_only p evs :
  Forall (fun e => is_open_event p e = true) evs ->
  Forall (fun e => reads_only p e = true) evs.
Proof.
  intros H. eapply Forall_impl; [exact H|].
  intros [[] []| | | | |]; cbn; try discriminate; auto.
Qed.

Ltac unfold_worker_monad :=
  unfold try_finally, try_except, try_with, bind, lift,
    set_tmp_download, set_path, add_output, get_path, get, modify, ret, raise;
  cbn [fst snd output tmp_download path].

Ltac simpl_locals := cbn [fst snd output tmp_download path].

(** The line of an extracted record is the line of the file the object
    was opened from, when this is the file at the path it keeps. *)
Lemma extractable_record_line tpf e w1 size h0 h1 h2 cad pix c hdus :
  extractable tpf w1 size h0 h1 h2 cad pix ->
  tpf_fits tpf = Some hdus -> decode e c = inr hdus ->
  fs w1 !! tpf_path tpf = Some c ->
  record_line e (tpf_url tpf) c
    (csv_line (expected_record (tpf_url tpf) size h0 h1 h2 cad pix)).
Proof.
  intros (f & c' & Hf & H0 & H1 & H2 & Hc' & -> & Hcad & Hpix) Hfits Hd Hc.
  rewrite Hfits in Hf. inversion Hf. subst f.
  rewrite Hc in Hc'. inversion Hc'. subst c'.
  exists hdus, h0, h1, h2, cad, pix. auto 10.
Qed.

(** The end of the [try] block, once the file is open. *)
Lemma emit_rows_spec (hdr : bool) tpf l e w1 c hdus :
  tpf_fits tpf = Some hdus -> decode e c = inr hdus ->
  fs w1 !! tpf_path tpf = Some c ->
  output l = EmptyString ->
  exists r' l',
    bind (if hdr
          then bind (lift (get_csv_header tpf)) (fun h => add_output (h +:+ LF))
          else ret tt)
      (fun _ : unit =>
         bind (lift (get_csv_row tpf)) (fun row => add_output (row +:+ LF)))
      (l, w1) = (r', (l', w1)) /\
    tmp_download l' = tmp_download l /\ path l' = path l /\
    match r' with
    | Ok _ => exists row, record_line e (tpf_url tpf) c row /\
                          output l' = worker_output hdr row
    | Raise _ => output l' = EmptyString
    | Diverge => False
    end.
Proof.
  intros Hfits Hd Hc Hout. unfold_worker_monad.
  destruct (get_metadata_cases tpf w1)
    as [(size & h0 & h1 & h2 & cad & pix & Hx) | (e' & He)].
  - pose proof (extractable_record_line _ _ _ _ _ _ _ _ _ _ _ Hx Hfits Hd Hc) as Hrow.
    destruct hdr; simpl_locals;
      rewrite ?(get_csv_header_ok _ _ _ _ _ _ _ _ Hx); simpl_locals;
      rewrite (get_csv_row_ok _ _ _ _ _ _ _ _ Hx); simpl_locals;
      eexists _, _; (split; [reflexivity|]); simpl_locals;
      (split; [reflexivity|]); (split; [reflexivity|]);
      eexists; (split; [exact Hrow|]); rewrite Hout; reflexivity.
  - destruct hdr; simpl_locals;
      rewrite ?(get_csv_header_raise _ _ _ He); simpl_locals;
      rewrite ?(get_csv_row_raise _ _ _ He); simpl_locals;
      eexists _, _; (split; [reflexivity|]); simpl_locals; auto.
Qed.

Lemma try_block_spec u (hdr : bool) w :
  strip u = u ->
  exists r l w1 evs,
    try_block u hdr (init_locals, w) = (r, (l, w1)) /\
    evolve (fun p => fs w !! local_path u = None /\ p = scratch_path u) evs w w1 /\
    logged_failures evs = [] /\
    (is_Some (fs w !! local_path u) ->
     tmp_download l = false /\
     exists evs', evs = EvFitsOpen (local_path u) :: evs' /\
                  Forall (fun e => reads_only (local_path u) e = true) evs') /\
    (tmp_download l = true -> path l = Some (scratch_path u)) /\
    match r with
    | Ok _ => exists row, is_data_row w u row /\ output l = worker_output hdr row
    | Raise _ => output l = EmptyString
    | Diverge => False
    end /\
    (fs w !! local_path u = None ->
     forall w0, download_file u (scratch_path u) w = (Ok tt, w0) ->
     tmp_download l = true).
Proof.
  intros Hu.
  assert (Hslp : strip (local_path u) = local_path u)
    by (rewrite <- Hu; apply strip_local_path).
  assert (Hssp : strip (scratch_path u) = scratch_path u)
    by (rewrite <- Hu; apply strip_scratch_path).
  unfold try_block.
  fold (local_path u). fold (scratch_path u).
  match goal with |- context [bind (lift (TargetPixelFile_init _ (Some u))) ?K] =>
    set (emit_rows := K) end.
  unfold set_tmp_download, set_path, get_path, path_exists, log.
  unfold bind, lift, get, modify, ret, raise, init_locals.
  cbn [fst snd output tmp_download path level_rank LOG_LEVEL Nat.leb].
  destruct (fs w !! local_path u) as [c|] eqn:Hlp; simpl_locals.
  - destruct (TargetPixelFile_init_spec (local_path u) u w)
      as (r & w1 & evs & Hi & Hev & Hall & Hr).
    rewrite Hi. destruct r as [tpf|e|]; [| |contradiction].
    + destruct Hr as (Hp & Hurl & c' & hdus & Hfits & Hc' & Hd).
      assert (Hfile : fs w1 !! tpf_path tpf = Some c').
      { rewrite Hp, Hslp. destruct Hev as (_ & _ & Hfs). rewrite Hfs; [exact Hc'|].
        unfold no_change. tauto. }
      assert (Hd' : decode (env w) c' = inr hdus) by exact Hd.
      destruct (emit_rows_spec hdr tpf
                  {| output := EmptyString; tmp_download := false;
                     path := Some (local_path u) |} (env w) w1 c' hdus Hfits Hd' Hfile eq_refl)
        as (r' & l' & Hrun & Htmp & Hpath & Hout).
      subst emit_rows. cbv beta. rewrite Hrun. rewrite Hurl in Hout.
      exists r', l', w1, (EvFitsOpen (local_path u) :: evs). split; [reflexivity|].
      split; [eapply evolve_weaken; [|exact Hev]; unfold no_change; tauto|].
      split; [exact (open_events_not_logged _ _ _ Hall)|].
      split; [intros _; split; [exact Htmp|];
              eexists; split; [reflexivity | exact (open_events_reads_only _ _ Hall)]|].
      split; [rewrite Htmp; discriminate|]. split; [|discriminate].
      destruct r' as [[]|e|]; [|exact Hout|exact Hout].
      destruct Hout as (row & Hrow & Hout). exists row. split; [|exact Hout].
      exists c'. split; [|exact Hrow]. unfold worker_file. rewrite Hlp. congruence.
    + eexists _, _, w1, (EvFitsOpen (local_path u) :: evs). split; [reflexivity|].
      simpl_locals.
      split; [eapply evolve_weaken; [|exact Hev]; unfold no_change; tauto|].
      split; [exact (open_events_not_logged _ _ _ Hall)|].
      split; [intros _; split; [reflexivity|];
              eexists; split; [reflexivity | exact (open_events_reads_only _ _ Hall)]|].
      split; [discriminate|]. split; [reflexivity | discriminate].
  - destruct (download_file_spec u (scratch_path u) w)
      as (rd & w0 & evd & Hdl & Hevd & Hevs & Hrd).
    rewrite Hdl.
    assert (Hfd : logged_failures evd = []) by (destruct Hevs as [-> | ->]; reflexivity).
    assert (Hevd' : evolve (fun p => @None string = None /\ p = scratch_path u) evd w w0)
      by (eapply evolve_weaken; [|exact Hevd]; cbv beta; auto).
    destruct rd as [[]|e|]; [| |congruence]; simpl_locals.
    + destruct (TargetPixelFile_init_spec (scratch_path u) u w0)
        as (r & w1 & evs & Hi & Hev & Hall & Hr).
      rewrite Hi.
      set (evo := EvFitsOpen (scratch_path u) :: evs) in *.
      assert (Hev' : evolve (fun p => @None string = None /\ p = scratch_path u) (evd ++ evo) w w1).
      { eapply evolve_trans; [exact Hevd'|].
        eapply evolve_weaken; [|exact Hev]. unfold no_change; tauto. }
      assert (Hf : logged_failures (evd ++ evo) = [])
        by (rewrite logged_failures_app, Hfd; exact (open_events_not_logged _ _ _ Hall)).
      destruct r as [tpf|e|]; [| |contradiction].
      * destruct Hr as (Hp & Hurl & c' & hdus & Hfits & Hc' & Hd).
        destruct (download_file_ok_inv _ _ _ _ Hdl)
          as (chunks & fault & Hnet & Hcreate & Hend & Hfs0 & Henv0).
        assert (Hbody : c' = cat_lines (written_chunks chunks)).
        { rewrite Hfs0, lookup_insert_eq in Hc'. congruence. }
        assert (Hfile : fs w1 !! tpf_path tpf = Some c').
        { rewrite Hp, Hssp. destruct Hev as (_ & _ & Hfs). rewrite Hfs; [exact Hc'|].
          unfold no_change. tauto. }
        assert (Hd' : decode (env w) c' = inr hdus) by (rewrite <- Henv0; exact Hd).
        destruct (emit_rows_spec hdr tpf
                    {| output := EmptyString; tmp_download := true;
                       path := Some (scratch_path u) |} (env w) w1 c' hdus
                    Hfits Hd' Hfile eq_refl)
          as (r' & l' & Hrun & Htmp & Hpath & Hout).
        subst emit_rows. cbv beta. rewrite Hrun. rewrite Hurl in Hout.
        exists r', l', w1, (evd ++ evo)%list. split; [reflexivity|].
        split; [exact Hev'|]. split; [exact Hf|].
        split; [intros [? ?]; discriminate|].
        split; [intros _; exact Hpath|]. split; [|intros _ w0' _; exact Htmp].
        destruct r' as [[]|e|]; [|exact Hout|exact Hout].
        destruct Hout as (row & Hrow & Hout). exists row. split; [|exact Hout].
        exists c'. split; [|exact Hrow]. unfold worker_file. rewrite Hlp.
        exists chunks, fault. auto.
      * eexists _, _, w1, (evd ++ evo)%list. split; [reflexivity|]. simpl_locals.
        split; [exact Hev'|]. split; [exact Hf|].
        split; [intros [? ?]; discriminate|]. auto.
    + eexists _, _, w0, evd. split; [reflexivity|]. simpl_locals.
      split; [exact Hevd'|]. split; [exact Hfd|].
      split; [intros [? ?]; discriminate|].
      split; [discriminate|]. split; [reflexivity|].
      intros _ w0' Hd'. discriminate Hd'.
Qed.

Lemma finally_block_spec u l w1 :
  (tmp_download l = true -> exists p, path l = Some p) ->
  exists w2 evs,
    finally_block u (l, w1) = (Ok tt, (l, w2)) /\
    evolve (fun q => tmp_download l = true /\ path l = Some q) evs w1 w2 /\
    failures evs = 0%nat /\
    (tmp_download l = false -> evs = []) /\
    (tmp_download l = true ->
     exists q, path l = Some q /\ In (EvUnlink q) evs /\
               (unlink_error (env w1) q = None -> fs w2 !! q = None)).
Proof.
  intros Hp. unfold finally_block, try_except, try_with.
  unfold get_path, log. unfold bind, lift, get, ret, raise.
  cbn [fst snd output tmp_download path level_rank LOG_LEVEL Nat.leb].
  destruct (tmp_download l) eqn:Htmp.
  - destruct (Hp eq_refl) as (p & Hpath).
    simpl_locals. rewrite Hpath. simpl_locals. rewrite ?Hpath. simpl_locals.
    destruct (unlink_spec p w1) as (r & w2 & Hun & Hev & Hr & Hgone). rewrite Hun.
    assert (Hev' : evolve (fun q => true = true /\ Some p = Some q) [EvUnlink p] w1 w2).
    { eapply evolve_weaken; [|exact Hev]. cbv beta. intros q ->. auto. }
    destruct r as [[]|e|]; [| |contradiction]; simpl_locals.
    + exists w2, [EvUnlink p]. split; [reflexivity|]. split; [exact Hev'|].
      split; [reflexivity|]. split; [discriminate|]. intros _. exists p. cbn. auto.
    + unfold emit, modify. simpl_locals.
      exists (add_event (EvLog ERROR (CouldNotDelete u e)) w2),
        [EvUnlink p; EvLog ERROR (CouldNotDelete u e)].
      split; [reflexivity|].
      split; [exact (evolve_trans _ _ _ _ _ _ Hev' (evolve_event _ _ _))|].
      split; [reflexivity|]. split; [discriminate|]. intros _. exists p. cbn. auto.
  - simpl_locals. exists w1, []. split; [reflexivity|]. split; [apply evolve_refl|].
    split; [reflexivity|]. split; [reflexivity | discriminate].
Qed.

Lemma worker_spec url hdr w :
  exists out w' evs,
    get_metadata_row url hdr w = (Ok (Some out), w') /\
    evolve (fun p => fs w !! local_path (strip url) = None /\ p = scratch_path (strip url))
           evs w w' /\
    (is_Some (fs w !! local_path (strip url)) ->
     exists evs', evs = EvFitsOpen (local_path (strip url)) :: evs' /\
                  Forall (fun e => reads_only (local_path (strip url)) e = true) evs') /\
    ((out = EmptyString /\
      exists e, logged_failures evs = [EvLog ERROR (WorkerError (strip url) e)]) \/
     (logged_failures evs = [] /\
      exists row, is_data_row w (strip url) row /\ out = worker_output hdr row)) /\
    (fs w !! local_path (strip url) = None ->
     forall w0,
       download_file (strip url) (scratch_path (strip url)) w = (Ok tt, w0) ->
       In (EvUnlink (scratch_path (strip url))) evs /\
       (unlink_error (env w) (scratch_path (strip url)) = None ->
        fs w' !! scratch_path (strip url) = None)).
Proof.
  unfold get_metadata_row, get_metadata_row_in.
  change (IGNORE_SHORT_CADENCE && contains "spd-targ" (strip url)) with false. cbv iota.
  set (u := strip url).
  destruct (try_block_spec u hdr w (strip_idem url))
    as (r & l & w1 & evs & Hrun & Hev & Hf & Hhit & Hp & Hout & Htmp).
  unfold try_finally, try_except, try_with. unfold bind at 1. unfold bind at 1.
  rewrite Hrun.
  assert (Hclean : forall w1' w2 evs2,
            env w1' = env w1 ->
            (tmp_download l = true ->
             exists q, path l = Some q /\ In (EvUnlink q) evs2 /\
                       (unlink_error (env w1') q = None -> fs w2 !! q = None)) ->
            fs w !! local_path u = None ->
            forall w0, download_file u (scratch_path u) w = (Ok tt, w0) ->
            In (EvUnlink (scratch_path u)) evs2 /\
            (unlink_error (env w) (scratch_path u) = None ->
             fs w2 !! scratch_path u = None)).
  { intros w1' w2 evs2 Henv Hfin Hmiss w0 Hdl.
    pose proof (Htmp Hmiss w0 Hdl) as Ht.
    destruct (Hfin Ht) as (q & Hq & Hin & Hgone).
    rewrite (Hp Ht) in Hq. inversion Hq. subst q.
    split; [exact Hin|]. intros Hu. apply Hgone.
    rewrite Henv. destruct Hev as (-> & _). exact Hu. }
  assert (Hl : tmp_download l = true -> exists p, path l = Some p) by eauto.
  assert (Hscr : forall q, tmp_download l = true /\ path l = Some q ->
                  fs w !! local_path u = None /\ q = scratch_path u).
  { intros q [Ht Hq]. rewrite (Hp Ht) in Hq. inversion Hq. split; [|reflexivity].
    destruct (fs w !! local_path u) eqn:E; [|reflexivity].
    destruct Hhit as [Hfalse _]; [eauto|]. congruence. }
  destruct r as [[]|e|]; [| |contradiction].
  - unfold ret at 1.
    destruct (finally_block_spec u l w1 Hl) as (w2 & evs2 & Hfin & Hev2 & Hf2 & Hnil & Hun).
    rewrite Hfin. unfold get, ret. simpl_locals.
    destruct Hout as (row & Hrow & Hout).
    exists (output l), w2, (evs ++ evs2)%list. split; [reflexivity|].
    split; [eapply evolve_trans; [exact Hev | eapply evolve_weaken; [exact Hscr | exact Hev2]]|].
    split.
    { intros Hsome. destruct (Hhit Hsome) as [Ht Hnd]. rewrite (Hnil Ht), app_nil_r. exact Hnd. }
    split; [right; split; [rewrite logged_failures_app, Hf, (failures_zero _ Hf2); reflexivity|];
            eauto|].
    intros Hmiss w0 Hdl.
    destruct (Hclean w1 w2 evs2 eq_refl Hun Hmiss w0 Hdl) as [Hin Hgone].
    split; [apply in_or_app; right; exact Hin | exact Hgone].
  - unfold lift, log. cbn [level_rank LOG_LEVEL Nat.leb]. unfold emit, modify. simpl_locals.
    destruct (finally_block_spec u l (add_event (EvLog ERROR (WorkerError u e)) w1) Hl)
      as (w2 & evs2 & Hfin & Hev2 & Hf2 & Hnil & Hun).
    rewrite Hfin. unfold get, ret. simpl_locals.
    exists (output l), w2, (evs ++ [EvLog ERROR (WorkerError u e)] ++ evs2)%list.
    split; [reflexivity|].
    split.
    { eapply evolve_trans; [exact Hev|]. eapply evolve_trans; [apply evolve_event|].
      eapply evolve_weaken; [exact Hscr | exact Hev2]. }
    split.
    { intros Hsome. destruct (Hhit Hsome) as [Ht (evs' & -> & Hnd)].
      rewrite (Hnil Ht), app_nil_r. eexists. split; [reflexivity|].
      apply Forall_app. split; [exact Hnd | repeat constructor]. }
    split; [left; split; [exact Hout|]; exists e;
            rewrite !logged_failures_app, Hf, (failures_zero _ Hf2); reflexivity|].
    intros Hmiss w0 Hdl.
    destruct (Hclean _ w2 evs2 eq_refl Hun Hmiss w0 Hdl) as [Hin Hgone].
    split; [apply in_or_app; right; apply in_or_app; right; exact Hin | exact Hgone].
Qed.

(** The worker after a download that went through: the scratch file is
    unlinked before the worker returns, and it is gone unless the unlink
    was refused. *)
Lemma completed_download_cleaned_up url hdr w w0 :
  fs w !! local_path (strip url) = None ->
  download_file (strip url) (scratch_path (strip url)) w = (Ok tt, w0) ->
  exists out w' evs,
    get_metadata_row url hdr w = (Ok (Some out), w') /\
    trace w' = (trace w ++ evs)%list /\
    In (EvUnlink (scratch_path (strip url))) evs /\
    (unlink_error (env w) (scratch_path (strip url)) = None ->
     fs w' !! scratch_path (strip url) = None).
Proof.
  intros Hmiss Hdl.
  destruct (worker_spec url hdr w) as (out & w' & evs & Hrun & (_ & Ht & _) & _ & _ & Hclean).
  destruct (Hclean Hmiss w0 Hdl) as [Hin Hgone].
  exists out, w', evs. auto.
Qed.

(** The worker after a download that raised: the failure is logged, the
    empty text is returned and the world is left as the download left
    it; in particular nothing is unlinked. *)
Lemma failed_download_outcome url hdr w e w0 :
  fs w !! local_path (strip url) = None ->
  download_file (strip url) (scratch_path (strip url)) w = (Raise e, w0) ->
  get_metadata_row url hdr w =
    (Ok (Some EmptyString), add_event (EvLog ERROR (WorkerError (strip url) e)) w0).
Proof.
  intros Hmiss Hdl.
  unfold get_metadata_row, get_metadata_row_in.
  change (IGNORE_SHORT_CADENCE && contains "spd-targ" (strip url)) with false. cbv iota.
  unfold try_block, finally_block.
  fold (local_path (strip url)). fold (scratch_path (strip url)).
  match goal with |- context [bind (lift (TargetPixelFile_init _ _)) ?K] =>
    set (emit_rows := K) end.
  unfold try_finally, try_except, try_with.
  unfold set_tmp_download, set_path, get_path, path_exists, log.
  unfold bind, lift, get, modify, ret, raise, emit, init_locals.
  cbn [fst snd output tmp_download path level_rank LOG_LEVEL Nat.leb].
  rewrite Hmiss. simpl_locals. rewrite Hdl. reflexivity.
Qed.

(** A refused connection: [download_file] raises at once, before any
    file is created. *)
Lemma refused_connection_raises url p w e :
  net (env w) url = ConnectError e ->
  download_file url p w = (Raise e, add_event (EvUrlopen url) w).
Proof.
  intros H. unfold download_file, urlopen, bind, emit, modify, get, raise. cbn.
  rewrite H. reflexivity.
Qed.

End WorkerFacts.

Section RowFacts.











(** A URL has at most one data line in a world. *)
Lemma is_data_row_functional w u r1 r2 :
  is_data_row w u r1 -> is_data_row w u r2 -> r1 = r2.
Proof.
  intros (c1 & F1 & f1 & a0 & a1 & a2 & acad & apix & Ad & A0 & A1 & A2 & Acad & Apix & ->)
         (c2 & F2 & f2 & b0 & b1 & b2 & bcad & bpix & Bd & B0 & B1 & B2 & Bcad & Bpix & ->).
  assert (c1 = c2).
  { unfold worker_file in F1, F2. destruct (fs w !! local_path u); [congruence|].
    destruct F1 as (ch1 & fa1 & N1 & _ & _ & ->), F2 as (ch2 & fa2 & N2 & _ & _ & ->).
    congruence. }
  subst c2. rewrite Ad in Bd. inversion Bd. subst f2. congruence.
Qed.



Lemma scratch_path_in_tmpdir u : String.prefix TMPDIR (scratch_path u) = true.
Proof. rewrite scratch_path_eq. apply prefix_app. Qed.

End RowFacts.

Section AggregatorFacts.



Lemma not_in_scratch_neq out u :
  String.prefix TMPDIR out = false -> out <> scratch_path u.
Proof.
  intros H ->. rewrite scratch_path_in_tmpdir in H. discriminate.
Qed.

Lemma file_write_spec p c w :
  exists w', file_write p c w = (Ok tt, w') /\
    evolve (fun q => q = p) [] w w' /\
    fs w' !! p = Some (default EmptyString (fs w !! p) +:+ c).
Proof.
  unfold file_write, modify. eexists. split; [reflexivity|].
  split; [apply file_write_evolve|]. cbn. apply lookup_insert_eq.
Qed.

Lemma accounted_impl (P Q : string -> string -> Prop) urls rows errs :
  (forall u row, In u urls -> P (strip u) row -> Q (strip u) row) ->
  accounted P urls rows errs -> accounted Q urls rows errs.
Proof.
  intros HPQ H. induction H as [|u urls row rows errs Hrow _ IH|u urls rows e errs _ IH].
  - constructor.
  - constructor; [apply HPQ; [left; reflexivity | exact Hrow]|].
    apply IH. intros u' row' Hin. apply HPQ. right. exact Hin.
  - constructor. apply IH. intros u' row' Hin. apply HPQ. right. exact Hin.
Qed.





(** The pool loop: it never raises; going through the URLs in the
    order it is given them, it appends the line of every URL whose
    worker succeeds and logs a failure for every other URL. *)
Lemma pool_loop_spec out urls : forall w,
  exists w' evs rows,
    pool_loop out urls w = (Ok tt, w') /\
    evolve (fun p => p = out \/ in_scratch p) evs w w' /\
    accounted (fun u row => exists wk evk,
                 evolve (fun p => p = out \/ in_scratch p) evk w wk /\
                 is_data_row wk u row)
              urls rows (logged_failures evs) /\
    (String.prefix TMPDIR out = false ->
     forall c0, fs w !! out = Some c0 ->
     fs w' !! out = Some (c0 +:+ lines_text rows)).
Proof.
  unfold pool_loop. induction urls as [|u rest IH]; intros w.
  - exists w, [], []. split; [reflexivity|]. split; [apply evolve_refl|].
    split; [constructor|].
    intros _ c0 Hc. cbn. rewrite append_nil_r_str. exact Hc.
  - cbn [for_each]. unfold bind at 1. unfold bind at 1.
    destruct (worker_spec u false w) as (o & w1 & evs1 & Hrun & Hev1 & _ & Hcase & _).
    rewrite Hrun.
    destruct (file_write_spec out o w1) as (w2 & Hw & Hev2 & Hc2). rewrite Hw.
    destruct (IH w2) as (w' & evs3 & rows3 & Hloop & Hev3 & Hacc & Hcontent).
    rewrite Hloop.
    assert (Hev12 : evolve (fun p => p = out \/ in_scratch p) (evs1 ++ []) w w2).
    { eapply evolve_trans.
      - eapply evolve_weaken; [|exact Hev1]. cbv beta. intros p [_ ->]. right.
        apply scratch_path_in_tmpdir.
      - eapply evolve_weaken; [|exact Hev2]. cbv beta. auto. }
    assert (Hev : evolve (fun p => p = out \/ in_scratch p) (evs1 ++ evs3) w w').
    { rewrite app_nil_r in Hev12. eapply evolve_trans; [exact Hev12 | exact Hev3]. }
    assert (Hacc' : accounted (fun u row => exists wk evk,
                       evolve (fun p => p = out \/ in_scratch p) evk w wk /\
                       is_data_row wk u row)
                    rest rows3 (logged_failures evs3)).
    { eapply accounted_impl; [|exact Hacc]. cbv beta.
      intros u0 row0 _ (wk & evk & Hk & Hr). exists wk, ((evs1 ++ []) ++ evk)%list.
      split; [eapply evolve_trans; [exact Hev12 | exact Hk] | exact Hr]. }
    assert (Hout1 : String.prefix TMPDIR out = false ->
                    forall c0, fs w !! out = Some c0 -> fs w2 !! out = Some (c0 +:+ o)).
    { intros Hpre c0 Hc0. rewrite Hc2.
      destruct Hev1 as (_ & _ & Hf1). rewrite Hf1, Hc0; [reflexivity|].
      intros [_ Heq]. exact (not_in_scratch_neq _ _ Hpre Heq). }
    destruct Hcase as [[-> (e & Hfail)] | (Hfail & row & Hrow & ->)].
    + exists w', (evs1 ++ evs3)%list, rows3. split; [reflexivity|].
      split; [exact Hev|].
      split; [rewrite logged_failures_app, Hfail; constructor; exact Hacc'|].
      intros Hpre c0 Hc0. rewrite (Hcontent Hpre _ (Hout1 Hpre _ Hc0)).
      rewrite append_nil_r_str. reflexivity.
    + exists w', (evs1 ++ evs3)%list, (row :: rows3). split; [reflexivity|].
      split; [exact Hev|].
      split.
      { rewrite logged_failures_app, Hfail. constructor; [|exact Hacc'].
        exists w, []. split; [apply evolve_refl | exact Hrow]. }
      intros Hpre c0 Hc0. rewrite (Hcontent Hpre _ (Hout1 Hpre _ Hc0)).
      unfold worker_output. cbn [lines_text]. rewrite append_assoc_str. reflexivity.
Qed.

Lemma open_w_ok p w :
  create_error (env w) p = None -> open_w p w = (Ok tt, truncated p w).
Proof.
  intros H. unfold open_w, bind, emit, modify, get, raise. cbn. rewrite H. reflexivity.
Qed.

Lemma open_w_refused p w e :
  create_error (env w) p = Some e ->
  open_w p w = (Raise e, add_event (EvCreate p) w).
Proof.
  intros H. unfold open_w, bind, emit, modify, get, raise. cbn. rewrite H. reflexivity.
Qed.


Lemma truncated_lookup p w : fs (truncated p w) !! p = Some EmptyString.
Proof. cbn. apply lookup_insert_eq. Qed.


(** What a run of [write_metadata_table] does once the output file is
    open. *)
Lemma write_metadata_table_spec order input_fn output_fn w :
  create_error (env w) output_fn = None ->
  match fs (truncated output_fn w) !! input_fn with
  | None =>
      write_metadata_table order input_fn output_fn w =
        (Raise (OSError input_fn), truncated output_fn w)
  | Some text =>
      match readlines text with
      | [] =>
          write_metadata_table order input_fn output_fn w =
            (Raise IndexError, truncated output_fn w)
      | first :: others =>
          exists head w1 evs1 w' evs rows,
            get_metadata_row first true (truncated output_fn w) = (Ok (Some head), w1) /\
            trace w1 = (trace (truncated output_fn w) ++ evs1)%list /\
            ((head = EmptyString /\
              exists e, logged_failures evs1 = [EvLog ERROR (WorkerError (strip first) e)]) \/
             (logged_failures evs1 = [] /\
              exists row, is_data_row (truncated output_fn w) (strip first) row /\
                          head = worker_output true row)) /\
            write_metadata_table order input_fn output_fn w = (Ok tt, w') /\
            evolve (fun p => p = output_fn \/ in_scratch p) (evs1 ++ evs)
                   (truncated output_fn w) w' /\
            accounted (fun u row => exists wk evk,
                         evolve (fun p => p = output_fn \/ in_scratch p) evk
                                (truncated output_fn w) wk /\
                         is_data_row wk u row)
                      (order others) rows (logged_failures evs) /\
            (String.prefix TMPDIR output_fn = false ->
             fs w' !! output_fn = Some (head +:+ lines_text rows))
      end
  end.
Proof.
  intros Hcreate.
  assert (Hrun0 : forall text,
    fs (truncated output_fn w) !! input_fn = text ->
    write_metadata_table order input_fn output_fn w =
      match text with
      | None => (Raise (OSError input_fn), truncated output_fn w)
      | Some text =>
          match readlines text with
          | [] => (Raise IndexError, truncated output_fn w)
          | first :: others =>
              bind (get_metadata_row first true)
                (fun result =>
                   bind (out_write output_fn result)
                     (fun _ => pool_loop output_fn (order others)))
                (truncated output_fn w)
          end
      end).
  { intros text Htext. unfold write_metadata_table. unfold bind at 1.
    rewrite (open_w_ok _ _ Hcreate). unfold bind at 1. unfold open_r, bind at 1, get.
    rewrite Htext. destruct text as [text|]; [|reflexivity].
    unfold ret at 1. destruct (readlines text); reflexivity. }
  rewrite (Hrun0 _ eq_refl). clear Hrun0. set (w0 := truncated output_fn w).
  destruct (fs w0 !! input_fn) as [text|] eqn:Hin; [|reflexivity].
  destruct (readlines text) as [|first others] eqn:Hurls; [reflexivity|].
  destruct (worker_spec first true w0) as (head & w1 & evs1 & Hrun & Hev1 & _ & Hcase & _).
  unfold bind. rewrite Hrun. unfold out_write.
  destruct (file_write_spec output_fn head w1) as (w2 & Hw & Hev2 & Hc2). rewrite Hw.
  destruct (pool_loop_spec output_fn (order others) w2)
    as (w' & evs & rows & Hloop & Hev3 & Hacc & Hcontent).
  rewrite Hloop.
  assert (Hev12 : evolve (fun p => p = output_fn \/ in_scratch p) (evs1 ++ []) w0 w2).
  { eapply evolve_trans.
    - eapply evolve_weaken; [|exact Hev1]. cbv beta. intros p [_ ->]. right.
      apply scratch_path_in_tmpdir.
    - eapply evolve_weaken; [|exact Hev2]. cbv beta. auto. }
  exists head, w1, evs1, w', evs, rows.
  split; [reflexivity|]. split; [exact (proj1 (proj2 Hev1))|].
  split; [exact Hcase|]. split; [reflexivity|].
  split.
  { rewrite app_nil_r in Hev12. eapply evolve_trans; [exact Hev12 | exact Hev3]. }
  split.
  { eapply accounted_impl; [|exact Hacc]. cbv beta.
    intros u0 row0 _ (wk & evk & Hk & Hr). exists wk, ((evs1 ++ []) ++ evk)%list.
    split; [eapply evolve_trans; [exact Hev12 | exact Hk] | exact Hr]. }
  intros Hpre. apply (Hcontent Hpre). rewrite Hc2.
  destruct Hev1 as (_ & _ & Hf1). rewrite Hf1.
  - subst w0. rewrite truncated_lookup. reflexivity.
  - intros [_ Heq]. exact (not_in_scratch_neq _ _ Hpre Heq).
Qed.

(** Two worlds that agree once the output file is open give the same
    run. *)
Lemma write_metadata_table_same_start order input_fn output_fn w1 w2 :
  create_error (env w1) output_fn = None ->
  create_error (env w2) output_fn = None ->
  truncated output_fn w1 = truncated output_fn w2 ->
  write_metadata_table order input_fn output_fn w1 =
  write_metadata_table order input_fn output_fn w2.
Proof.
  intros H1 H2 Heq. unfold write_metadata_table, bind.
  rewrite (open_w_ok _ _ H1), (open_w_ok _ _ H2), Heq. reflexivity.
Qed.

(** The run as seen from outside: the output file is created first,
    then only it and scratch files change. *)
Lemma write_metadata_table_evolve order input_fn output_fn w r w' :
  create_error (env w) output_fn = None ->
  write_metadata_table order input_fn output_fn w = (r, w') ->
  exists evs,
    evolve (fun p => p = output_fn \/ in_scratch p) evs (truncated output_fn w) w'.
Proof.
  intros Hcreate Hrun.
  pose proof (write_metadata_table_spec order input_fn output_fn w Hcreate) as H.
  destruct (fs (truncated output_fn w) !! input_fn) as [text|].
  - destruct (readlines text) as [|first others].
    + rewrite H in Hrun. inversion Hrun. exists []. apply evolve_refl.
    + destruct H as (head & w1 & evs1 & w2 & evs & rows & _ & _ & _ & Hrun' & Hev & _).
      rewrite Hrun' in Hrun. inversion Hrun. subst. eauto.
  - rewrite H in Hrun. inversion Hrun. exists []. apply evolve_refl.
Qed.

End AggregatorFacts.

(* ===================================================================== *)
(** * Properties of the pipeline *)
(* ===================================================================== *)

Section CsvFacts.






Lemma append_inv_head a : forall x y, a +:+ x = a +:+ y -> x = y.
Proof.
  induction a as [|c a IH]; intros x y H; [exact H|].
  change (String c (a +:+ x) = String c (a +:+ y)) in H.
  inversion H. auto.
Qed.

Lemma input_output_differ c : input_fn_of c <> output_fn_of c.
Proof.
  unfold input_fn_of, output_fn_of. intros H.
  apply append_inv_head, append_inv_head in H. discriminate.
Qed.

End CsvFacts.

Section Claims.

Import Sample.

(** C8, as the code has it: the scratch path of a URL is the scratch
    directory followed by the basename of the URL and nothing else, so
    two URLs are given the same scratch path exactly when their
    basenames are equal. *)
Theorem scratch_path_by_basename u1 u2 :
  scratch_path u1 = scratch_path u2 <-> basename u1 = basename u2.
Proof.
  rewrite !scratch_path_eq. split.
  - apply append_inv_head.
  - intros ->. reflexivity.
Qed.

(** C8, counterexample: [url_a] and [url_a'] are distinct URLs with the
    same basename, and they are given the same scratch path. *)
Lemma scratch_path_collision :
  url_a <> url_a' /\ basename url_a = basename url_a' /\
  scratch_path url_a = scratch_path url_a' /\
  ~ (forall u1 u2, u1 <> u2 -> basename u1 = basename u2 ->
                   scratch_path u1 <> scratch_path u2).
Proof.
  assert (Hne : url_a <> url_a') by discriminate.
  repeat split; [exact Hne|].
  intros H. exact (H url_a url_a' Hne eq_refl eq_refl).
Qed.

(** C5: for every file whose metadata is extracted, the header line is
    exactly the line the specification spells out (the lower-cased keys
    of the record, comma-joined, the same for every file), and the data
    line lists the values of these keys in the same order. *)
Theorem csv_header_fixed self w meta w' :
  get_metadata self w = (Ok meta, w') ->
  get_csv_header self w = (Ok SPEC_HEADER, w) /\
  od_keys meta = FIELD_KEYS /\
  join "," (map lower (od_keys meta)) = SPEC_HEADER /\
  get_csv_row self w =
    (Ok (join "," (map (fun kw => py_str (default PUndefined (card_lookup kw meta)))
                       FIELD_KEYS)), w).
Proof.
  intros H.
  destruct (get_metadata_inv _ _ _ _ H)
    as (size & h0 & h1 & h2 & cad & pix & Hx & -> & ->).
  split; [exact (get_csv_header_ok _ _ _ _ _ _ _ _ Hx)|].
  split; [reflexivity|]. split; [reflexivity|].
  rewrite (get_csv_row_ok _ _ _ _ _ _ _ _ Hx). reflexivity.
Qed.

Lemma csv_header_fixed_witness :
  get_csv_header good_tpf world = (Ok SPEC_HEADER, world).
Proof.
  apply (csv_header_fixed good_tpf world
           (expected_record url_m 4 primary table aperture (PInt 3913) [0; 1; 3; 3; 0; -1])
           world).
  vm_compute. reflexivity.
Defined.

(** C3, as the code has it: for an opened file with its three HDUs, an
    [NAXIS2] card in extension 1, a data array in extension 2 and its
    local file in place, [get_metadata] returns the full record of 38
    fields in the fixed order; each of the 33 fields read through
    [header] holds the value of its card, and the empty string when the
    card is absent or undefined, whatever the other cards are. *)
Theorem get_metadata_header_fields self w size h0 h1 h2 cad pix :
  extractable self w size h0 h1 h2 cad pix ->
  exists meta,
    get_metadata self w = (Ok meta, w) /\
    od_keys meta = FIELD_KEYS /\ List.length meta = 38%nat /\
    (forall kw, In kw PRIMARY_KEYWORDS -> card_lookup kw meta = Some (card_value h0 kw)) /\
    (forall kw, In kw TABLE_KEYWORDS -> card_lookup kw meta = Some (card_value h1 kw)) /\
    (forall kw, In kw APERTURE_KEYWORDS -> card_lookup kw meta = Some (card_value h2 kw)) /\
    (forall h kw, card_lookup kw (hdr h) = None \/ card_lookup kw (hdr h) = Some PUndefined ->
                  card_value h kw = PStr EmptyString).
Proof.
  intros Hx. exists (expected_record (tpf_url self) size h0 h1 h2 cad pix).
  split; [exact (get_metadata_ok _ _ _ _ _ _ _ _ Hx)|].
  split; [reflexivity|]. split; [reflexivity|].
  repeat split.
  - intros kw Hin. cbn in Hin. decompose [or] Hin; subst; try contradiction; reflexivity.
  - intros kw Hin. cbn in Hin. decompose [or] Hin; subst; try contradiction; reflexivity.
  - intros kw Hin. cbn in Hin. decompose [or] Hin; subst; try contradiction; reflexivity.
  - intros h kw [H | H]; unfold card_value; rewrite H; reflexivity.
Qed.

Lemma get_metadata_header_fields_witness :
  exists meta,
    get_metadata good_tpf world = (Ok meta, world) /\
    od_keys meta = FIELD_KEYS /\ List.length meta = 38%nat /\
    (forall kw, In kw PRIMARY_KEYWORDS -> card_lookup kw meta = Some (card_value primary kw)) /\
    (forall kw, In kw TABLE_KEYWORDS -> card_lookup kw meta = Some (card_value table kw)) /\
    (forall kw, In kw APERTURE_KEYWORDS -> card_lookup kw meta = Some (card_value aperture kw)) /\
    (forall h kw, card_lookup kw (hdr h) = None \/ card_lookup kw (hdr h) = Some PUndefined ->
                  card_value h kw = PStr EmptyString).
Proof.
  apply (get_metadata_header_fields good_tpf world 4 primary table aperture
           (PInt 3913) [0; 1; 3; 3; 0; -1]).
  exists tpf_hdus, "FITS". vm_compute. repeat split.
Defined.

(** C3, counterexample: [odd_tpf] is an opened file whose extension 1
    has no [NAXIS2] card; the lookup of the cadences field raises and no
    record is returned. *)
Lemma missing_naxis2_aborts :
  is_Some (tpf_fits odd_tpf) /\
  fst (get_metadata odd_tpf world) = Raise (KeyError "NAXIS2") /\
  ~ (forall self w, is_Some (tpf_fits self) ->
       exists meta, fst (get_metadata self w) = Ok meta /\ List.length meta = 38%nat).
Proof.
  assert (Hs : is_Some (tpf_fits odd_tpf)) by (eexists; reflexivity).
  assert (He : fst (get_metadata odd_tpf world) = Raise (KeyError "NAXIS2"))
    by (vm_compute; reflexivity).
  split; [exact Hs|]. split; [exact He|].
  intros H. destruct (H odd_tpf world Hs) as (meta & Hm & _).
  rewrite He in Hm. discriminate.
Qed.

(** C6: when the local-mirror path of a URL (the stripped URL with the
    archive prefix replaced by [DATA_STORE]) exists, the worker opens
    that very path and nothing else: no [urlopen], no file created, no
    file removed (the path is not marked temporary), and the file system
    is left as it was. *)
Theorem mirror_hit_no_download url header w c :
  fs w !! local_path (strip url) = Some c ->
  exists out w' evs,
    get_metadata_row url header w = (Ok (Some out), w') /\
    fs w' = fs w /\
    trace w' = (trace w ++ EvFitsOpen (local_path (strip url)) :: evs)%list /\
    Forall (fun e => reads_only (local_path (strip url)) e = true) evs.
Proof.
  intros Hc.
  destruct (worker_spec url header w) as (out & w' & evs & Hrun & Hev & Hhit & _ & _).
  destruct Hhit as (evs' & -> & Hro); [eauto|].
  exists out, w', evs'. split; [exact Hrun|].
  destruct Hev as (_ & Ht & Hf). split; [|split; [exact Ht | exact Hro]].
  apply map_eq. intros p. apply Hf. rewrite Hc. intros [? _]. discriminate.
Qed.

Lemma mirror_hit_no_download_witness :
  exists out w' evs,
    get_metadata_row url_m true world = (Ok (Some out), w') /\
    fs w' = fs world /\
    trace w' = (trace world ++ EvFitsOpen (local_path (strip url_m)) :: evs)%list /\
    Forall (fun e => reads_only (local_path (strip url_m)) e = true) evs.
Proof.
  apply (mirror_hit_no_download url_m true world "FITS").
  vm_compute. reflexivity.
Defined.

(** C1, the failing input: the archive breaks off while [url_b] is
    being read.  The scratch file has been created and holds the first
    chunk, the worker reports a failure, and it returns without any
    attempt to remove the file, which is still there. *)
Lemma partial_download_left_behind :
  let r := get_metadata_row url_b false world in
  fst r = Ok (Some EmptyString) /\
  fs (snd r) !! scratch_path url_b = Some "FI" /\
  trace (snd r) =
    [EvUrlopen url_b; EvCreate (scratch_path url_b);
     EvLog ERROR (WorkerError url_b (URLError url_b))].
Proof. vm_compute. repeat split. Qed.

(** C2, the failing input: the archive refuses the connection for a URL
    that is not in the mirror.  The fetch is tried once; there is no
    second attempt and no sleep, and the worker reports the failure. *)
Lemma refused_fetch_tried_once :
  let url := "http://example.org/tpf/ktwo201129999-c01_lpd-targ.fits" in
  let r := get_metadata_row url false world in
  fs world !! local_path (strip url) = None /\
  fst r = Ok (Some EmptyString) /\
  trace (snd r) = [EvUrlopen url; EvLog ERROR (WorkerError url (URLError url))].
Proof. vm_compute. repeat split. Qed.

(** C7, as the code has it: when the URL list of a campaign is missing,
    [write_metadata_table] raises once the output file of that campaign
    has been created empty, and the campaign loop, which handles no
    exception, ends there: the campaigns that follow are not started. *)
Theorem missing_url_list_ends_run order c rest w :
  create_error (env w) (output_fn_of c) = None ->
  fs w !! input_fn_of c = None ->
  campaign_loop order (c :: rest) w =
    (Raise (OSError (input_fn_of c)),
     truncated (output_fn_of c) (add_event (EvLog INFO (NowIndexing c)) w)).
Proof.
  intros Hcreate Hin. unfold campaign_loop. cbn [for_each].
  unfold bind at 1. unfold bind at 1. unfold log. cbn [level_rank LOG_LEVEL Nat.leb].
  unfold emit, modify.
  set (w1 := add_event (EvLog INFO (NowIndexing c)) w).
  pose proof (write_metadata_table_spec order (input_fn_of c) (output_fn_of c) w1 Hcreate) as H.
  replace (fs (truncated (output_fn_of c) w1) !! input_fn_of c) with (@None string) in H.
  - rewrite H. reflexivity.
  - symmetry. cbn. rewrite lookup_insert_ne; [exact Hin|].
    intros E. exact (input_output_differ c (eq_sym E)).
Qed.

Lemma missing_url_list_ends_run_witness :
  campaign_loop last_first [0; 1] world =
    (Raise (OSError (input_fn_of 0)),
     truncated (output_fn_of 0) (add_event (EvLog INFO (NowIndexing 0)) world)).
Proof.
  apply (missing_url_list_ends_run last_first 0 [1] world); vm_compute; reflexivity.
Defined.

(** C7, counterexample: run over all campaigns in a world where
    campaign 0 has no URL list and campaign 1 has one, the program ends
    with the error of campaign 0; campaign 1 is never indexed and its
    stale output file is left untouched. *)
Lemma later_campaigns_not_processed :
  let r := main last_first ["2-analyze-target-pixel-files.py"; "all"] world in
  is_Some (fs world !! input_fn_of 1) /\
  fst r = Raise (OSError (input_fn_of 0)) /\
  fs (snd r) !! output_fn_of 1 = Some "stale" /\
  trace (snd r) = [EvLog INFO (NowIndexing 0); EvCreate (output_fn_of 0)].
Proof. vm_compute. repeat split. eexists. reflexivity. Qed.

(** C10: [write_metadata_table] opens the output path for writing before
    it reads its input.  Whatever the output file held before the run,
    or whether it existed at all, the run and its final world are the
    same, so a run replaces prior output and never appends to it; with
    the URL list missing the run still leaves the output file empty.
    Apart from the output path, only scratch files of the workers can
    differ afterwards. *)
Theorem output_replaced order input_fn output_fn w r w' :
  create_error (env w) output_fn = None ->
  write_metadata_table order input_fn output_fn w = (r, w') ->
  (exists evs, trace w' = (trace w ++ EvCreate output_fn :: evs)%list) /\
  (forall old,
     write_metadata_table order input_fn output_fn
       (set_fs (insert output_fn old) w) = (r, w')) /\
  write_metadata_table order input_fn output_fn (set_fs (delete output_fn) w) = (r, w') /\
  (input_fn <> output_fn -> fs w !! input_fn = None ->
   r = Raise (OSError input_fn) /\ fs w' !! output_fn = Some EmptyString) /\
  (forall p, p <> output_fn -> ~ in_scratch p -> fs w' !! p = fs w !! p).
Proof.
  intros Hcreate Hrun.
  destruct (write_metadata_table_evolve _ _ _ _ _ _ Hcreate Hrun) as (evs & _ & Ht & Hf).
  split.
  { exists evs. rewrite Ht. cbn. rewrite <- app_assoc. reflexivity. }
  split.
  { intros old. rewrite <- Hrun.
    apply write_metadata_table_same_start; [exact Hcreate | exact Hcreate |].
    unfold truncated, set_fs, add_event. cbn. rewrite insert_insert_eq. reflexivity. }
  split.
  { rewrite <- Hrun.
    apply write_metadata_table_same_start; [exact Hcreate | exact Hcreate |].
    unfold truncated, set_fs, add_event. cbn. rewrite insert_delete_eq. reflexivity. }
  split.
  { intros Hne Hin.
    pose proof (write_metadata_table_spec order input_fn output_fn w Hcreate) as H.
    replace (fs (truncated output_fn w) !! input_fn) with (@None string) in H.
    - rewrite H in Hrun. inversion Hrun. split; [reflexivity|]. apply truncated_lookup.
    - symmetry. cbn. rewrite lookup_insert_ne; [exact Hin | congruence]. }
  intros p Hp Hscr. rewrite Hf by tauto. cbn. apply lookup_insert_ne. congruence.
Qed.

Lemma output_replaced_witness :
  let run := write_metadata_table last_first (input_fn_of 1) (output_fn_of 1) world in
  write_metadata_table last_first (input_fn_of 1) (output_fn_of 1)
    (set_fs (delete (output_fn_of 1)) world) = (fst run, snd run) /\
  fs (snd run) !! mirror_file = fs world !! mirror_file.
Proof.
  intros run.
  destruct (output_replaced last_first (input_fn_of 1) (output_fn_of 1) world
              (fst run) (snd run) eq_refl (surjective_pairing run))
    as (_ & _ & Hdel & _ & Hframe).
  split; [exact Hdel|].
  apply Hframe; vm_compute; discriminate.
Defined.







End Claims.

(* ===================================================================== *)
(** * Further facts: workers, downloads, runs, numbers *)
(* ===================================================================== *)


Section MoreWorkerFacts.

Ltac simpl_locals := cbn [fst snd output tmp_download path].

(** The worker on a mirror miss whose download went through: what is left
    to do after the [try] block is the unlink of the scratch file, on a
    world whose files are those the download left. *)
Lemma worker_after_download url (hdr : bool) w w0 :
  fs w !! local_path (strip url) = None ->
  download_file (strip url) (scratch_path (strip url)) w = (Ok tt, w0) ->
  exists out w1 evs1,
    get_metadata_row url hdr w =
      (Ok (Some out),
       match unlink (scratch_path (strip url)) w1 with
       | (Raise e, w2) => add_event (EvLog ERROR (CouldNotDelete (strip url) e)) w2
       | (_, w2) => w2
       end) /\
    fs w1 = fs w0 /\ env w1 = env w0 /\ faults w1 = faults (snd (TargetPixelFile_init (scratch_path (strip url)) (Some (strip url)) w0)) /\
    trace w1 = (trace w0 ++ evs1)%list /\
    Forall (fun e => match e with EvUnlink _ | EvCreate _ | EvUrlopen _ => False | _ => True end) evs1.
Proof.
  intros Hmiss Hdl.
  unfold get_metadata_row, get_metadata_row_in.
  change (IGNORE_SHORT_CADENCE && contains "spd-targ" (strip url)) with false. cbv iota.
  set (u := strip url) in *.
  unfold try_block, finally_block.
  fold (local_path u). fold (scratch_path u).
  match goal with |- context [bind (lift (TargetPixelFile_init _ (Some u))) ?K] =>
    set (emit_rows := K) end.
  unfold try_finally, try_except, try_with.
  unfold set_tmp_download, set_path, get_path, path_exists, log.
  unfold bind, lift, get, modify, ret, raise, init_locals.
  cbn [fst snd output tmp_download path level_rank LOG_LEVEL Nat.leb].
  rewrite Hmiss. simpl_locals. rewrite Hdl. simpl_locals.
  destruct (TargetPixelFile_init_spec (scratch_path u) u w0)
    as (r & w1 & evs & Hi & (Henv & Htr & Hfs) & Hall & Hr).
  assert (Hfs' : fs w1 = fs w0).
  { apply map_eq. intros q. apply Hfs. unfold no_change. tauto. }
  assert (Hopen : Forall (fun e => match e with
                                   | EvUnlink _ | EvCreate _ | EvUrlopen _ => False
                                   | _ => True end) (EvFitsOpen (scratch_path u) :: evs)).
  { constructor; [exact I|]. eapply Forall_impl; [exact Hall|].
    intros [[] []| | | | |]; cbn; try discriminate; auto. }
  rewrite Hi. cbn [snd]. destruct r as [tpf|e|]; [| |contradiction].
  - destruct Hr as (Hp & Hu & c' & hdus & Hfits & Hc' & Hd).
    assert (Hfile : fs w1 !! tpf_path tpf = Some c').
    { rewrite Hp. unfold u. rewrite strip_scratch_path. fold u. rewrite Hfs'. exact Hc'. }
    destruct (emit_rows_spec hdr tpf
                {| output := EmptyString; tmp_download := true;
                   path := Some (scratch_path u) |} (env w0) w1 c' hdus
                Hfits Hd Hfile eq_refl)
      as (r' & l' & Hrun & Htmp & Hpath & Hout).
    subst emit_rows. cbv beta. rewrite Hrun. cbn in Htmp, Hpath.
    destruct r' as [[]|e|]; [| |contradiction]; simpl_locals.
    + repeat (progress (rewrite ?Htmp, ?Hpath; simpl_locals)).
      exists (output l'), w1, (EvFitsOpen (scratch_path u) :: evs).
      split.
      { destruct (unlink_spec (scratch_path u) w1) as (ru & w2 & Hun & _ & Hru & _).
        rewrite Hun. destruct ru as [[]|e|]; [reflexivity | reflexivity | contradiction]. }
      auto 10.
    + unfold emit, modify. simpl_locals.
      repeat (progress (rewrite ?Htmp, ?Hpath; simpl_locals)).
      exists (output l'), (add_event (EvLog ERROR (WorkerError u e)) w1),
        ((EvFitsOpen (scratch_path u) :: evs) ++ [EvLog ERROR (WorkerError u e)])%list.
      split.
      { match goal with |- context [unlink (scratch_path u) ?w1'] =>
          destruct (unlink_spec (scratch_path u) w1') as (ru & w2 & Hun & _ & Hru & _) end.
        rewrite Hun. destruct ru as [[]|e'|]; [reflexivity | reflexivity | contradiction]. }
      cbn [fs env faults trace add_event]. rewrite Htr, <- app_assoc.
      split; [exact Hfs'|]. split; [exact Henv|]. split; [reflexivity|].
      split; [reflexivity|]. apply Forall_app. split; [exact Hopen | repeat constructor].
  - simpl_locals. unfold emit, modify. simpl_locals.
    exists EmptyString, (add_event (EvLog ERROR (WorkerError u e)) w1),
      ((EvFitsOpen (scratch_path u) :: evs) ++ [EvLog ERROR (WorkerError u e)])%list.
    split.
    { match goal with |- context [unlink (scratch_path u) ?w1'] =>
          destruct (unlink_spec (scratch_path u) w1') as (ru & w2 & Hun & _ & Hru & _) end.
        rewrite Hun. destruct ru as [[]|e'|]; [reflexivity | reflexivity | contradiction]. }
    cbn [fs env faults trace add_event]. rewrite Htr, <- app_assoc.
    split; [exact Hfs'|]. split; [exact Henv|]. split; [reflexivity|].
    split; [reflexivity|]. apply Forall_app. split; [exact Hopen | repeat constructor].
Qed.

End MoreWorkerFacts.

Section MoreDownloadFacts.

(** A download that returned has created its file. *)
Lemma download_file_outcome_aux url p w w0 :
  download_file url p w = (Ok tt, w0) ->
  exists body, fs w0 = <[p := body]> (fs w) /\ env w0 = env w.
Proof.
  intros Hdl.
  destruct (net (env w) url) as [e|chunks fault] eqn:Hnet.
  - rewrite (refused_connection_raises url p w e Hnet) in Hdl. discriminate.
  - destruct (create_error (env w) p) as [e|] eqn:Hc.
    + revert Hdl.
      unfold download_file, urlopen, open_w, bind, emit, modify, get, ret, raise. cbn.
      rewrite Hnet. cbn. rewrite Hc. cbn. discriminate.
    + destruct (download_file_content url p w chunks fault Hnet Hc)
        as (w' & Hrun & Hfs & _ & He & _).
      rewrite Hrun in Hdl. inversion Hdl. subst w'. eauto.
Qed.

End MoreDownloadFacts.

Section MoreCsvFacts.

Lemma count_comma_cells cells :
  cells <> [] ->
  count_char comma (join "," cells) = (List.length cells - 1 + commas_in cells)%nat.
Proof.
  destruct cells as [|x l]; [congruence|]. intros _.
  rewrite count_comma_join. unfold commas_in. cbn [List.length]. lia.
Qed.

Lemma count_char_zero c s : count_char c s = 0%nat <-> mem c s = false.
Proof.
  split; [|apply count_char_absent].
  induction s as [|d s IH]; [reflexivity|]. cbn [mem count_char].
  destruct (Ascii.eqb c d); [discriminate|]. exact IH.
Qed.

Lemma commas_in_zero cells :
  commas_in cells = 0%nat <-> Forall (fun x => mem comma x = false) cells.
Proof.
  unfold commas_in. induction cells as [|x l IH]; cbn [fold_right].
  - split; [constructor | reflexivity].
  - rewrite Forall_cons, <- IH, <- count_char_zero. lia.
Qed.

End MoreCsvFacts.

Section RunFacts.

Lemma last_char_app a b : b <> EmptyString -> last_char (a +:+ b) = last_char b.
Proof.
  intros Hb. induction a as [|c a IH]; [reflexivity|].
  change (String c a +:+ b) with (String c (a +:+ b)). cbn [last_char].
  destruct (a +:+ b) eqn:E; [|exact IH].
  destruct a; [change (b = EmptyString) in E; congruence | discriminate].
Qed.

Lemma input_output_apart c c' : input_fn_of c <> output_fn_of c'.
Proof.
  intros H. apply (f_equal last_char) in H. revert H.
  unfold input_fn_of, output_fn_of.
  rewrite !last_char_app by (try discriminate; destruct (fmt02 _); discriminate).
  discriminate.
Qed.

Lemma input_not_in_scratch c : ~ in_scratch (input_fn_of c).
Proof. unfold in_scratch. discriminate. Qed.

Lemma output_not_in_scratch c : ~ in_scratch (output_fn_of c).
Proof. unfold in_scratch. discriminate. Qed.

Lemma not_in_scratch_prefix p : ~ in_scratch p -> String.prefix TMPDIR p = false.
Proof. unfold in_scratch. destruct (String.prefix TMPDIR p); congruence. Qed.

(** [write_metadata_table] in every case: it comes to an end, changes no
    file but the output and scratch files, removes no file outside the
    scratch directory, and goes through when the output can be created
    and the URL list is there with a line in it. *)
Lemma write_metadata_table_total order i o w :
  exists r w' evs,
    write_metadata_table order i o w = (r, w') /\ r <> Diverge /\
    env w' = env w /\ trace w' = (trace w ++ EvCreate o :: evs)%list /\
    (forall p, p <> o -> ~ in_scratch p -> fs w' !! p = fs w !! p) /\
    (forall p, ~ in_scratch p -> is_Some (fs w !! p) -> is_Some (fs w' !! p)) /\
    (create_error (env w) o = None -> ~ in_scratch o -> is_Some (fs w' !! o)) /\
    (create_error (env w) o = None -> i <> o ->
     forall text, fs w !! i = Some text -> readlines text <> [] -> r = Ok tt).
Proof.
  destruct (create_error (env w) o) as [e|] eqn:Hc.
  - exists (Raise e), (add_event (EvCreate o) w), [].
    split.
    { unfold write_metadata_table. unfold bind at 1.
      rewrite (open_w_refused o w e Hc). reflexivity. }
    split; [discriminate|]. cbn. repeat split; auto; discriminate.
  - pose proof (write_metadata_table_spec order i o w Hc) as H.
    assert (Hframe : forall p, p <> o -> fs (truncated o w) !! p = fs w !! p).
    { intros p Hp. cbn. apply lookup_insert_ne. congruence. }
    assert (Hkeep : forall p, is_Some (fs w !! p) -> is_Some (fs (truncated o w) !! p)).
    { intros p Hp. destruct (decide (p = o)) as [->|Hne].
      - rewrite truncated_lookup. eauto.
      - rewrite Hframe by exact Hne. exact Hp. }
    assert (Hraise : forall e, write_metadata_table order i o w = (Raise e, truncated o w) ->
              (forall text, i <> o -> fs w !! i = Some text -> readlines text <> [] ->
               fs (truncated o w) !! i = Some text -> False) ->
              exists r w' evs,
                write_metadata_table order i o w = (r, w') /\ r <> Diverge /\
                env w' = env w /\ trace w' = (trace w ++ EvCreate o :: evs)%list /\
                (forall p, p <> o -> ~ in_scratch p -> fs w' !! p = fs w !! p) /\
                (forall p, ~ in_scratch p -> is_Some (fs w !! p) -> is_Some (fs w' !! p)) /\
                (@None exn = None -> ~ in_scratch o -> is_Some (fs w' !! o)) /\
                (@None exn = None -> i <> o ->
                 forall text, fs w !! i = Some text -> readlines text <> [] -> r = Ok tt)).
    { intros e Hrun Habs. exists (Raise e), (truncated o w), [].
      split; [exact Hrun|]. split; [discriminate|].
      split; [reflexivity|]. split; [reflexivity|].
      split; [intros p Hp _; exact (Hframe p Hp)|].
      split; [intros p _ Hp; exact (Hkeep p Hp)|].
      split; [intros _ _; rewrite truncated_lookup; eauto|].
      intros _ Hne text Hi Hl. exfalso. apply (Habs text Hne Hi Hl).
      rewrite Hframe by exact Hne. exact Hi. }
    destruct (fs (truncated o w) !! i) as [text|] eqn:Hi.
    + destruct (readlines text) as [|first others] eqn:Hl.
      * apply (Hraise _ H). intros text' _ _ Hl' E. congruence.
      * destruct H as (head & w1 & evs1 & w' & evs & rows & _ & _ & _ & Hrun
                       & (Henv & Ht & Hfs) & _ & Hcontent).
        exists (Ok tt), w', (evs1 ++ evs)%list.
        split; [exact Hrun|]. split; [discriminate|].
        split; [exact Henv|]. split; [rewrite Ht; cbn; rewrite <- app_assoc; reflexivity|].
        assert (Hout : ~ in_scratch o -> is_Some (fs w' !! o)).
        { intros Ho. rewrite (Hcontent (not_in_scratch_prefix o Ho)). eauto. }
        split.
        { intros p Hp Hs. rewrite Hfs by tauto. exact (Hframe p Hp). }
        split.
        { intros p Hs Hp. destruct (decide (p = o)) as [->|Hne]; [exact (Hout Hs)|].
          rewrite Hfs by tauto. rewrite Hframe by exact Hne. exact Hp. }
        split; [intros _; exact Hout | reflexivity].
    + apply (Hraise _ H). intros text' _ _ _ E. discriminate.
Qed.

Lemma campaign_loop_cons order c rest w :
  campaign_loop order (c :: rest) w =
  match write_metadata_table order (input_fn_of c) (output_fn_of c)
          (add_event (EvLog INFO (NowIndexing c)) w) with
  | (Ok _, w1) => campaign_loop order rest w1
  | (Raise e, w1) => (Raise e, w1)
  | (Diverge, w1) => (Diverge, w1)
  end.
Proof.
  unfold campaign_loop. cbn [for_each].
  unfold bind at 1. unfold bind at 1. unfold log. cbn [level_rank LOG_LEVEL Nat.leb].
  unfold emit, modify.
  destruct (write_metadata_table _ _ _ _) as [[[]|e|] w1]; reflexivity.
Qed.

(** The campaign loop in every case. *)
Lemma campaign_loop_total order campaigns : forall w,
  exists r w' evs,
    campaign_loop order campaigns w = (r, w') /\ r <> Diverge /\
    env w' = env w /\ trace w' = (trace w ++ evs)%list /\
    (forall p, (forall c, In c campaigns -> p <> output_fn_of c) -> ~ in_scratch p ->
               fs w' !! p = fs w !! p) /\
    (forall p, ~ in_scratch p -> is_Some (fs w !! p) -> is_Some (fs w' !! p)).
Proof.
  induction campaigns as [|c rest IH]; intros w.
  - exists (Ok tt), w, []. split; [reflexivity|]. split; [discriminate|].
    rewrite app_nil_r. auto.
  - rewrite campaign_loop_cons.
    set (w0 := add_event (EvLog INFO (NowIndexing c)) w).
    destruct (write_metadata_table_total order (input_fn_of c) (output_fn_of c) w0)
      as (r & w1 & evs & Hrun & Hr & Henv & Ht & Hframe & Hkeep & _).
    rewrite Hrun. destruct r as [[]|e|]; [| |congruence].
    + destruct (IH w1) as (r2 & w2 & evs2 & Hrun2 & Hr2 & Henv2 & Ht2 & Hframe2 & Hkeep2).
      exists r2, w2, ([EvLog INFO (NowIndexing c)] ++ (EvCreate (output_fn_of c) :: evs) ++ evs2)%list.
      split; [exact Hrun2|]. split; [exact Hr2|].
      split; [rewrite Henv2, Henv; reflexivity|].
      split; [rewrite Ht2, Ht; cbn; rewrite <- !app_assoc; reflexivity|].
      split.
      * intros p Hp Hs. rewrite Hframe2 by (auto using in_cons).
        apply Hframe; [apply Hp; left; reflexivity | exact Hs].
      * intros p Hs Hp. apply Hkeep2; [exact Hs|]. apply Hkeep; [exact Hs | exact Hp].
    + exists (Raise e), w1, ([EvLog INFO (NowIndexing c)] ++ EvCreate (output_fn_of c) :: evs)%list.
      split; [reflexivity|]. split; [discriminate|]. split; [exact Henv|].
      split; [rewrite Ht; cbn; rewrite <- !app_assoc; reflexivity|].
      split.
      * intros p Hp Hs. apply Hframe; [apply Hp; left; reflexivity | exact Hs].
      * intros p Hs Hp. apply Hkeep; [exact Hs | exact Hp].
Qed.

(** The campaign loop when every campaign has its URL list and its
    output can be created. *)
Lemma campaign_loop_ok order campaigns : forall w,
  (forall c, In c campaigns ->
     create_error (env w) (output_fn_of c) = None /\
     exists text, fs w !! input_fn_of c = Some text /\ readlines text <> []) ->
  exists w',
    campaign_loop order campaigns w = (Ok tt, w') /\
    (forall c, In c campaigns -> is_Some (fs w' !! output_fn_of c)).
Proof.
  induction campaigns as [|c rest IH]; intros w Hall.
  - exists w. split; [reflexivity|]. intros c [].
  - rewrite campaign_loop_cons.
    set (w0 := add_event (EvLog INFO (NowIndexing c)) w).
    destruct (write_metadata_table_total order (input_fn_of c) (output_fn_of c) w0)
      as (r & w1 & evs & Hrun & Hr & Henv & Ht & Hframe & Hkeep & Hout & Hok).
    destruct (Hall c (or_introl eq_refl)) as (Hc & text & Hi & Hl).
    rewrite (Hok Hc (input_output_apart c c) text Hi Hl) in Hrun. rewrite Hrun.
    destruct (IH w1) as (w' & Hrun' & Hall').
    { intros c' Hin. destruct (Hall c' (or_intror Hin)) as (Hc' & text' & Hi' & Hl').
      split; [rewrite Henv; exact Hc'|]. exists text'. split; [|exact Hl'].
      rewrite Hframe; [exact Hi' | apply input_output_apart | apply input_not_in_scratch]. }
    exists w'. split; [exact Hrun'|].
    intros c' [<- | Hin]; [|exact (Hall' c' Hin)].
    destruct (campaign_loop_total order rest w1) as (r2 & w2 & evs2 & Hrun2 & _ & _ & _ & _ & Hkeep2).
    rewrite Hrun' in Hrun2. inversion Hrun2. subst w2.
    apply Hkeep2; [apply output_not_in_scratch|].
    apply Hout; [exact Hc | apply output_not_in_scratch].
Qed.





End RunFacts.

Section NumberFacts.

Import Sample.

Lemma rstrip_uint d :
  rstrip (NilEmpty.string_of_uint d) = NilEmpty.string_of_uint d.
Proof.
  induction d; cbn [NilEmpty.string_of_uint rstrip]; [reflexivity|..];
    rewrite IHd; destruct (NilEmpty.string_of_uint d); reflexivity.
Qed.

Lemma parse_digits_acc d : forall acc,
  parse_digits (NilEmpty.string_of_uint d) (Z.pos acc) true =
  Some (Z.pos (Pos.of_uint_acc d acc)).
Proof.
  induction d; intros acc; cbn [NilEmpty.string_of_uint Pos.of_uint_acc];
    [reflexivity|..];
    cbn [parse_digits]; 
    match goal with |- context [digit_val ?c] =>
      let v := eval vm_compute in (digit_val c) in change (digit_val c) with v end;
    cbv iota beta; rewrite <- IHd; f_equal; lia.
Qed.

Lemma parse_digits_uint d : forall b,
  d <> Decimal.Nil \/ b = true ->
  parse_digits (NilEmpty.string_of_uint d) 0 b = Some (Z.of_N (Pos.of_uint d)).
Proof.
  induction d; intros b Hb; cbn [NilEmpty.string_of_uint Pos.of_uint].
  - destruct Hb as [Hb | ->]; [congruence | reflexivity].
  - cbn [parse_digits].
    change (digit_val "0") with (Some 0). cbv iota beta.
    change (10 * 0 + 0) with 0. apply IHd. right. reflexivity.
  - cbn [parse_digits]. change (digit_val "1") with (Some 1). cbv iota beta.
    change (10 * 0 + 1) with (Z.pos 1). rewrite parse_digits_acc. reflexivity.
  - cbn [parse_digits]. change (digit_val "2") with (Some 2). cbv iota beta.
    change (10 * 0 + 2) with (Z.pos 2). rewrite parse_digits_acc. reflexivity.
  - cbn [parse_digits]. change (digit_val "3") with (Some 3). cbv iota beta.
    change (10 * 0 + 3) with (Z.pos 3). rewrite parse_digits_acc. reflexivity.
  - cbn [parse_digits]. change (digit_val "4") with (Some 4). cbv iota beta.
    change (10 * 0 + 4) with (Z.pos 4). rewrite parse_digits_acc. reflexivity.
  - cbn [parse_digits]. change (digit_val "5") with (Some 5). cbv iota beta.
    change (10 * 0 + 5) with (Z.pos 5). rewrite parse_digits_acc. reflexivity.
  - cbn [parse_digits]. change (digit_val "6") with (Some 6). cbv iota beta.
    change (10 * 0 + 6) with (Z.pos 6). rewrite parse_digits_acc. reflexivity.
  - cbn [parse_digits]. change (digit_val "7") with (Some 7). cbv iota beta.
    change (10 * 0 + 7) with (Z.pos 7). rewrite parse_digits_acc. reflexivity.
  - cbn [parse_digits]. change (digit_val "8") with (Some 8). cbv iota beta.
    change (10 * 0 + 8) with (Z.pos 8). rewrite parse_digits_acc. reflexivity.
  - cbn [parse_digits]. change (digit_val "9") with (Some 9). cbv iota beta.
    change (10 * 0 + 9) with (Z.pos 9). rewrite parse_digits_acc. reflexivity.
Qed.

Lemma to_uint_not_nil p : Pos.to_uint p <> Decimal.Nil.
Proof.
  intros H. pose proof (DecimalPos.Unsigned.of_to p) as E. rewrite H in E. discriminate.
Qed.

Lemma strip_uint d :
  strip (NilEmpty.string_of_uint d) = NilEmpty.string_of_uint d.
Proof.
  unfold strip.
  replace (lstrip (NilEmpty.string_of_uint d)) with (NilEmpty.string_of_uint d)
    by (destruct d; reflexivity).
  apply rstrip_uint.
Qed.

(** The decimal text of a positive number: it starts with a digit, the
    strip leaves it alone and it parses back. *)
Lemma pos_text p :
  let t := NilEmpty.string_of_uint (Pos.to_uint p) in
  NilZero.string_of_uint (Pos.to_uint p) = t /\
  strip t = t /\
  (exists c r, t = String c r /\ is_space c = false /\ c <> "+"%char /\ c <> "-"%char /\
               c <> "a"%char) /\
  forall b, parse_digits t 0 b = Some (Z.pos p).
Proof.
  cbv zeta. pose proof (to_uint_not_nil p) as Hn.
  pose proof (DecimalPos.Unsigned.of_to p) as E.
  split; [destruct (Pos.to_uint p); [congruence | reflexivity..]|].
  split; [apply strip_uint|].
  split.
  - destruct (Pos.to_uint p); [congruence|..]; cbn [NilEmpty.string_of_uint];
      eexists _, _; (split; [reflexivity|]); repeat split; discriminate.
  - intros b. rewrite parse_digits_uint by (left; exact Hn). rewrite E. reflexivity.
Qed.

Lemma py_int_unsigned c r w :
  c <> "+"%char -> c <> "-"%char ->
  strip (String c r) = String c r ->
  py_int (String c r) w =
    match parse_digits (String c r) 0 false with
    | Some z => (Ok z, w)
    | None => (Raise ValueError, w)
    end.
Proof.
  intros Hp Hm Hs. unfold py_int. rewrite Hs.
  destruct c as [b0 b1 b2 b3 b4 b5 b6 b7].
  destruct b0, b1, b2, b3, b4, b5, b6, b7; try congruence;
    cbv iota beta; destruct (parse_digits _ 0 false); reflexivity.
Qed.

(** [int(str(z)) == z] *)
Lemma py_int_text z w : py_int (str_of_Z z) w = (Ok z, w).
Proof.
  unfold str_of_Z. destruct z as [|p|p]; [reflexivity|..];
    cbn [Z.to_int NilZero.string_of_int];
    destruct (pos_text p) as (Ht & Hs & (c & r & Hc & Hsp & Hplus & Hminus & _) & Hparse);
    rewrite Ht.
  - rewrite Hc in *. rewrite (py_int_unsigned c r w Hplus Hminus Hs), Hparse. reflexivity.
  - unfold py_int.
    replace (strip (String "-" (NilEmpty.string_of_uint (Pos.to_uint p))))
      with (String "-" (NilEmpty.string_of_uint (Pos.to_uint p))).
    + cbv iota beta. rewrite Hparse. reflexivity.
    + unfold strip. cbn [lstrip]. change (is_space "-") with false. cbv iota.
      cbn [rstrip]. rewrite rstrip_uint, Hc. reflexivity.
Qed.

(** [int("{:02d}".format(z)) == z] *)
Lemma py_int_fmt02 z w : py_int (fmt02 z) w = (Ok z, w).
Proof.
  unfold fmt02. destruct (String.length (str_of_Z z) <? 2)%nat eqn:Hl; [|apply py_int_text].
  revert Hl. unfold str_of_Z. destruct z as [|p|p]; [reflexivity|..];
    cbn [Z.to_int NilZero.string_of_int];
    destruct (pos_text p) as (Ht & Hs & (c & r & Hc & _) & Hparse); rewrite Ht; intros Hl.
  - change ("0" +:+ NilEmpty.string_of_uint (Pos.to_uint p))
      with (NilEmpty.string_of_uint (Decimal.D0 (Pos.to_uint p))).
    change (NilEmpty.string_of_uint (Decimal.D0 (Pos.to_uint p)))
      with (String "0" (NilEmpty.string_of_uint (Pos.to_uint p))) at 1.
    rewrite py_int_unsigned;
      [|discriminate|discriminate|exact (strip_uint (Decimal.D0 (Pos.to_uint p)))].
    change (String "0" (NilEmpty.string_of_uint (Pos.to_uint p)))
      with (NilEmpty.string_of_uint (Decimal.D0 (Pos.to_uint p))).
    rewrite parse_digits_uint by (left; discriminate).
    cbn [Pos.of_uint]. rewrite (DecimalPos.Unsigned.of_to p). reflexivity.
  - rewrite Hc in Hl. cbn in Hl. discriminate.
Qed.

Lemma fmt02_inj z z' : fmt02 z = fmt02 z' -> z = z'.
Proof.
  intros H. pose proof (py_int_fmt02 z world) as E.
  rewrite H, py_int_fmt02 in E. congruence.
Qed.

Lemma str_of_Z_not_all z : String.eqb (str_of_Z z) "all" = false.
Proof.
  unfold str_of_Z. destruct z as [|p|p]; [reflexivity| |reflexivity].
  cbn [Z.to_int NilZero.string_of_int].
  destruct (pos_text p) as (Ht & _ & (c & r & Hc & _ & _ & _ & Ha) & _).
  rewrite Ht, Hc. cbn [String.eqb].
  destruct (Ascii.eqb_spec c "a"); [contradiction | reflexivity].
Qed.

Lemma length_append_str a b :
  String.length (a +:+ b) = (String.length a + String.length b)%nat.
Proof.
  induction a as [|c a IH]; [reflexivity|].
  change (String c a +:+ b) with (String c (a +:+ b)). cbn [String.length].
  rewrite IH. reflexivity.
Qed.

Lemma append_inv_tail s : forall a b, a +:+ s = b +:+ s -> a = b.
Proof.
  induction a as [|c a IH]; intros [|d b] H.
  - reflexivity.
  - apply (f_equal String.length) in H. rewrite !length_append_str in H.
    cbn [String.length] in H. lia.
  - apply (f_equal String.length) in H. rewrite !length_append_str in H.
    cbn [String.length] in H. lia.
  - change (String c (a +:+ s) = String d (b +:+ s)) in H. inversion H. subst d.
    f_equal. apply IH. assumption.
Qed.

End NumberFacts.

(* ===================================================================== *)
(** * Further properties of the script *)
(* ===================================================================== *)

Section Further.

Import Sample.

(** X1: the constructor of [TargetPixelFile] always comes to an end.  It
    calls [fits.open] on the path it was given at least once and at most
    [MAX_ATTEMPTS] times, sleeps once less often than it calls and
    [SLEEP_BETWEEN_ATTEMPTS] seconds each time, raises only after the
    last allowed call, and changes no file. *)
Theorem init_retry_shape path url w :
  exists r w' evs,
    TargetPixelFile_init path url w = (r, w') /\
    r <> Diverge /\
    trace w' = (trace w ++ evs)%list /\ fs w' = fs w /\ env w' = env w /\
    (1 <= count_ev is_fits_open evs)%nat /\
    Z.of_nat (count_ev is_fits_open evs) <= MAX_ATTEMPTS /\
    S (count_ev is_sleep evs) = count_ev is_fits_open evs /\
    Forall (fun e => is_sleep e = true -> e = EvSleep SLEEP_BETWEEN_ATTEMPTS) evs /\
    Forall (fun e => is_fits_open e = true -> e = EvFitsOpen path) evs /\
    (forall e, r = Raise e -> Z.of_nat (count_ev is_fits_open evs) = MAX_ATTEMPTS).
Proof.
  unfold TargetPixelFile_init, bind.
  destruct (open_attempts_retry_shape LOOP_FUEL path 1 None w)
    as (r & w' & evs & Hrun & Ht & Hone & Hmany & Hsl & Hall & Hlast);
    [unfold MAX_ATTEMPTS; lia | vm_compute; lia |].
  destruct (open_attempts_spec LOOP_FUEL path 1 None w)
    as (r2 & w2 & evs2 & Hrun2 & (Henv & Ht2 & Hfs) & Hopen & Hres);
    [unfold MAX_ATTEMPTS; lia | vm_compute; lia |].
  rewrite Hrun in Hrun2. inversion Hrun2. subst r2 w2. clear Hrun2.
  rewrite Hrun.
  assert (Hevs : evs = EvFitsOpen path :: evs2).
  { rewrite Ht in Ht2. apply app_inv_head in Ht2. exact Ht2. }
  assert (Hpaths : Forall (fun e => is_fits_open e = true -> e = EvFitsOpen path) evs).
  { rewrite Hevs. constructor; [reflexivity|].
    eapply Forall_impl; [exact Hopen|]. cbv beta.
    intros [| | |q| |]; try discriminate. cbn. intros Hq _.
    apply String.eqb_eq in Hq. congruence. }
  assert (Hfs' : fs w' = fs w).
  { apply map_eq. intros p. apply Hfs. unfold no_change. tauto. }
  destruct r as [o|e|]; [| |contradiction].
  - eexists _, w', evs. split; [reflexivity|]. split; [discriminate|].
    repeat (split; [assumption|]). intros e He. discriminate.
  - eexists _, w', evs. split; [reflexivity|]. split; [discriminate|].
    repeat (split; [assumption|]). intros e' _.
    specialize (Hlast e eq_refl). lia.
Qed.

(** X2: transient faults of [fits.open] are absorbed by the retry loop.
    When fewer than [MAX_ATTEMPTS] calls in a row fail and the file at
    the path is there and decodes, the constructor returns the object
    for these HDUs, with the stripped path and the URL given (the
    stripped path when none is), after one sleep per failed call. *)
Theorem transient_faults_absorbed path url w es rest c hdus :
  faults w = (map Some es ++ rest)%list -> no_fault_next rest ->
  Z.of_nat (List.length es) < MAX_ATTEMPTS ->
  fs w !! path = Some c -> decode (env w) c = inr hdus ->
  exists w' evs,
    TargetPixelFile_init path url w =
      (Ok {| tpf_path := strip path; tpf_url := default (strip path) url;
             tpf_fits := Some hdus |}, w') /\
    trace w' = (trace w ++ evs)%list /\
    count_ev is_fits_open evs = S (List.length es) /\
    count_ev is_sleep evs = List.length es /\
    faults w' = tl rest /\ fs w' = fs w.
Proof.
  intros Hf Hn Hlen Hc Hd. unfold TargetPixelFile_init, bind.
  destruct (open_attempts_absorbs path c hdus es 1 LOOP_FUEL None w rest)
    as (w' & evs & Hrun & Ht & Ho & Hs & Hfa & Hfs & _);
    try assumption; [lia | lia | vm_compute; lia |].
  rewrite Hrun. exists w', evs. split; [destruct url; reflexivity|]. auto.
Qed.

Lemma transient_faults_absorbed_witness :
  let w := set_faults [Some (OSError mirror_file); Some (OSError mirror_file); None] world in
  exists w' evs,
    TargetPixelFile_init mirror_file None w =
      (Ok {| tpf_path := strip mirror_file; tpf_url := default (strip mirror_file) None;
             tpf_fits := Some tpf_hdus |}, w') /\
    trace w' = (trace w ++ evs)%list /\
    count_ev is_fits_open evs = 3%nat /\
    count_ev is_sleep evs = 2%nat /\
    faults w' = [] /\ fs w' = fs w.
Proof.
  intros w.
  apply (transient_faults_absorbed mirror_file None w
           [OSError mirror_file; OSError mirror_file] [None] "FITS" tpf_hdus).
  - reflexivity.
  - exact I.
  - vm_compute. reflexivity.
  - vm_compute. reflexivity.
  - reflexivity.
Defined.

(** X3: a file that is missing, or that is there but does not decode,
    costs every attempt: the constructor raises after exactly
    [MAX_ATTEMPTS] calls of [fits.open] and [MAX_ATTEMPTS - 1] sleeps. *)
Theorem persistent_failure_exhausts_attempts path url w :
  (fs w !! path = None \/
   exists c e, fs w !! path = Some c /\ decode (env w) c = inl e) ->
  exists e w' evs,
    TargetPixelFile_init path url w = (Raise e, w') /\
    trace w' = (trace w ++ evs)%list /\
    Z.of_nat (count_ev is_fits_open evs) = MAX_ATTEMPTS /\
    Z.of_nat (count_ev is_sleep evs) = MAX_ATTEMPTS - 1.
Proof.
  intros Hbad. unfold TargetPixelFile_init, bind.
  destruct (open_attempts_retry_shape LOOP_FUEL path 1 None w)
    as (r & w' & evs & Hrun & Ht & Hone & Hmany & Hsl & Hall & Hlast);
    [unfold MAX_ATTEMPTS; lia | vm_compute; lia |].
  destruct (open_attempts_spec LOOP_FUEL path 1 None w)
    as (r2 & w2 & evs2 & Hrun2 & _ & _ & Hres);
    [unfold MAX_ATTEMPTS; lia | vm_compute; lia |].
  rewrite Hrun in Hrun2. inversion Hrun2. subst r2 w2. clear Hrun2.
  rewrite Hrun. destruct r as [o|e|]; [| |contradiction].
  - exfalso. destruct Hres as (c & hdus & _ & Hc & Hd).
    destruct Hbad as [Hnone | (c' & e & Hc' & Hd')]; [congruence|].
    rewrite Hc in Hc'. inversion Hc'. subst. congruence.
  - exists e, w', evs. split; [reflexivity|]. split; [exact Ht|].
    specialize (Hlast e eq_refl). split; lia.
Qed.

Lemma persistent_failure_exhausts_attempts_witness :
  exists e w' evs,
    TargetPixelFile_init "/nowhere" None world = (Raise e, w') /\
    trace w' = (trace world ++ evs)%list /\
    Z.of_nat (count_ev is_fits_open evs) = MAX_ATTEMPTS /\
    Z.of_nat (count_ev is_sleep evs) = MAX_ATTEMPTS - 1.
Proof.
  apply (persistent_failure_exhausts_attempts "/nowhere" None world).
  left. vm_compute. reflexivity.
Defined.

(** X4: the worker never lets an exception out and always returns a
    text.  The text is either empty, with exactly one failure logged,
    which names the URL, or the data line of the URL (after the header
    line when asked for) with no failure logged.  The data line is the
    line of the file the worker works on (the file at the mirror path,
    or else the body the archive serves), with the size of that very
    file, and there is no other line it could be.  No file other than
    the scratch file of the URL is changed, and none at all when the
    file is in the local mirror. *)
Theorem worker_never_raises url hdr w :
  exists out w' evs,
    get_metadata_row url hdr w = (Ok (Some out), w') /\
    env w' = env w /\ trace w' = (trace w ++ evs)%list /\
    ((out = EmptyString /\
      exists e, logged_failures evs = [EvLog ERROR (WorkerError (strip url) e)]) \/
     (logged_failures evs = [] /\
      exists row, is_data_row w (strip url) row /\ out = worker_output hdr row)) /\
    (forall row, is_data_row w (strip url) row ->
                 out = EmptyString \/ out = worker_output hdr row) /\
    (forall p, p <> scratch_path (strip url) -> fs w' !! p = fs w !! p) /\
    (is_Some (fs w !! local_path (strip url)) -> fs w' = fs w).
Proof.
  destruct (worker_spec url hdr w)
    as (out & w' & evs & Hrun & (Henv & Ht & Hfs) & _ & Hout & _).
  exists out, w', evs. split; [exact Hrun|]. split; [exact Henv|].
  split; [exact Ht|]. split; [exact Hout|]. split; [|split].
  - intros row Hrow. destruct Hout as [[-> _] | (_ & row' & Hrow' & ->)]; [left; reflexivity|].
    right. rewrite (is_data_row_functional _ _ _ _ Hrow Hrow'). reflexivity.
  - intros p Hp. apply Hfs. tauto.
  - intros [c Hc]. apply map_eq. intros p. apply Hfs. rewrite Hc. intros [? _]. discriminate.
Qed.

(** X5: the text of the worker does not depend on the blanks around the
    URL: the worker of a line of the URL list, line terminator
    included, is the worker of the stripped URL. *)
Theorem worker_ignores_blanks url hdr w :
  get_metadata_row (url +:+ LF) hdr w = get_metadata_row url hdr w /\
  get_metadata_row (strip url) hdr w = get_metadata_row url hdr w.
Proof.
  unfold get_metadata_row, get_metadata_row_in, LF.
  rewrite strip_idem, strip_snoc_space by reflexivity. split; reflexivity.
Qed.

(** X6: [download_file] in full.  A refused connection or a refused
    creation of the local file raises and leaves the files as they are.
    Otherwise the local file is created or emptied and then holds the
    chunks received before the first empty chunk, in order; the call
    ends normally at an empty chunk or at the end of the body, and with
    the fault of the connection when it breaks off first. *)
Theorem download_file_outcome url p w :
  exists r w',
    download_file url p w = (r, w') /\ env w' = env w /\
    match net (env w) url with
    | ConnectError e =>
        r = Raise e /\ fs w' = fs w /\ trace w' = (trace w ++ [EvUrlopen url])%list
    | Stream chunks fault =>
        trace w' = (trace w ++ [EvUrlopen url; EvCreate p])%list /\
        match create_error (env w) p with
        | Some e => r = Raise e /\ fs w' = fs w
        | None =>
            r = read_outcome chunks fault /\
            fs w' = <[p := cat_lines (written_chunks chunks)]> (fs w)
        end
    end.
Proof.
  destruct (net (env w) url) as [e|chunks fault] eqn:Hnet.
  - rewrite (refused_connection_raises url p w e Hnet).
    eexists _, _. split; [reflexivity|]. cbn. auto.
  - destruct (create_error (env w) p) as [e|] eqn:Hc.
    + unfold download_file, urlopen, open_w, bind, emit, modify, get, ret, raise. cbn.
      rewrite Hnet. cbn. rewrite Hc. cbn.
      eexists _, _. split; [reflexivity|]. cbn. rewrite <- app_assoc. auto.
    + destruct (download_file_content url p w chunks fault Hnet Hc)
        as (w' & Hrun & Hfs & Ht & He & _).
      exists (read_outcome chunks fault), w'. auto 10.
Qed.

(** X7: after a download that went through, the worker unlinks the
    scratch file as its last action: unless the unlink is refused, the
    files are the ones the worker found, without the scratch path,
    whether the metadata could be extracted or not. *)
Theorem completed_download_removed url hdr w w0 :
  fs w !! local_path (strip url) = None ->
  download_file (strip url) (scratch_path (strip url)) w = (Ok tt, w0) ->
  unlink_error (env w) (scratch_path (strip url)) = None ->
  exists out w' evs,
    get_metadata_row url hdr w = (Ok (Some out), w') /\
    fs w' = delete (scratch_path (strip url)) (fs w) /\
    trace w' = (trace w0 ++ evs ++ [EvUnlink (scratch_path (strip url))])%list /\
    Forall (fun e => match e with
                     | EvUnlink _ | EvCreate _ | EvUrlopen _ => False
                     | _ => True
                     end) evs.
Proof.
  intros Hmiss Hdl Hun.
  destruct (worker_after_download url hdr w w0 Hmiss Hdl)
    as (out & w1 & evs1 & Hrun & Hfs & Henv & _ & Ht & Hall).
  destruct (download_file_outcome_aux (strip url) (scratch_path (strip url)) w w0 Hdl)
    as (body & Hfs0 & Henv0).
  exists out, (set_fs (delete (scratch_path (strip url)))
                      (add_event (EvUnlink (scratch_path (strip url))) w1)), evs1.
  split.
  { rewrite Hrun. f_equal.
    unfold unlink, bind, emit, modify, get, ret, raise. cbn.
    rewrite Henv, Henv0, Hun, Hfs, Hfs0, lookup_insert_eq. reflexivity. }
  cbn. rewrite Hfs, Hfs0, Ht, <- app_assoc, delete_insert_eq. auto.
Qed.

Lemma completed_download_removed_witness :
  exists out w' evs,
    get_metadata_row url_a true world = (Ok (Some out), w') /\
    fs w' = delete (scratch_path (strip url_a)) (fs world) /\
    trace w' = (trace (snd (download_file (strip url_a) (scratch_path (strip url_a)) world))
                  ++ evs ++ [EvUnlink (scratch_path (strip url_a))])%list /\
    Forall (fun e => match e with
                     | EvUnlink _ | EvCreate _ | EvUrlopen _ => False
                     | _ => True
                     end) evs.
Proof.
  apply (completed_download_removed url_a true world
           (snd (download_file (strip url_a) (scratch_path (strip url_a)) world)));
    vm_compute; reflexivity.
Defined.

(** X8: when the unlink of the scratch file is refused, the refusal is
    logged and nothing more: the worker still returns its text, the
    downloaded file stays in the scratch directory as it was received,
    and the refusal is not counted as a failure of the URL. *)
Theorem refused_unlink_keeps_file url hdr w w0 e :
  fs w !! local_path (strip url) = None ->
  download_file (strip url) (scratch_path (strip url)) w = (Ok tt, w0) ->
  unlink_error (env w) (scratch_path (strip url)) = Some e ->
  exists out w' evs,
    get_metadata_row url hdr w = (Ok (Some out), w') /\
    fs w' = fs w0 /\ is_Some (fs w' !! scratch_path (strip url)) /\
    trace w' = (trace w0 ++ evs ++ [EvUnlink (scratch_path (strip url));
                                    EvLog ERROR (CouldNotDelete (strip url) e)])%list /\
    failures (evs ++ [EvUnlink (scratch_path (strip url));
                      EvLog ERROR (CouldNotDelete (strip url) e)]) = failures evs /\
    Forall (fun e => match e with
                     | EvUnlink _ | EvCreate _ | EvUrlopen _ => False
                     | _ => True
                     end) evs.
Proof.
  intros Hmiss Hdl Hun.
  destruct (worker_after_download url hdr w w0 Hmiss Hdl)
    as (out & w1 & evs1 & Hrun & Hfs & Henv & _ & Ht & Hall).
  destruct (download_file_outcome_aux (strip url) (scratch_path (strip url)) w w0 Hdl)
    as (body & Hfs0 & Henv0).
  exists out, (add_event (EvLog ERROR (CouldNotDelete (strip url) e))
                 (add_event (EvUnlink (scratch_path (strip url))) w1)), evs1.
  split.
  { rewrite Hrun. f_equal.
    unfold unlink, bind, emit, modify, get, ret, raise. cbn.
    rewrite Henv, Henv0, Hun. reflexivity. }
  cbn [fs trace add_event]. rewrite Hfs, Hfs0, Ht, <- !app_assoc, lookup_insert_eq.
  split; [reflexivity|]. split; [eauto|]. split; [reflexivity|].
  split; [|exact Hall].
  rewrite failures_app.
  change (failures [EvUnlink (scratch_path (strip url));
                    EvLog ERROR (CouldNotDelete (strip url) e)]) with 0%nat.
  lia.
Qed.

Lemma refused_unlink_keeps_file_witness :
  exists out w' evs,
    get_metadata_row url_a true MoreSamples.stuck_world = (Ok (Some out), w') /\
    fs w' = fs (snd (download_file (strip url_a) (scratch_path (strip url_a)) MoreSamples.stuck_world)) /\
    is_Some (fs w' !! scratch_path (strip url_a)) /\
    trace w' =
      (trace (snd (download_file (strip url_a) (scratch_path (strip url_a)) MoreSamples.stuck_world))
         ++ evs ++ [EvUnlink (scratch_path (strip url_a));
                    EvLog ERROR (CouldNotDelete (strip url_a)
                                   (OSError (scratch_path (strip url_a))))])%list /\
    failures (evs ++ [EvUnlink (scratch_path (strip url_a));
                      EvLog ERROR (CouldNotDelete (strip url_a)
                                     (OSError (scratch_path (strip url_a))))]) = failures evs /\
    Forall (fun e => match e with
                     | EvUnlink _ | EvCreate _ | EvUrlopen _ => False
                     | _ => True
                     end) evs.
Proof.
  apply (refused_unlink_keeps_file url_a true MoreSamples.stuck_world
           (snd (download_file (strip url_a) (scratch_path (strip url_a)) MoreSamples.stuck_world))
           (OSError (scratch_path (strip url_a))));
    vm_compute; reflexivity.
Defined.

(** X9: the ways [get_metadata] fails on an opened file, in the order
    the code meets them: the local file is gone by the time its size is
    asked for, the file has fewer than three HDUs, extension 1 has no
    [NAXIS2] card, or extension 2 has no data array.  Nothing else makes
    it fail (no other missing card does), and a failure changes
    nothing. *)
Theorem get_metadata_errors self w f e w' :
  tpf_fits self = Some f ->
  get_metadata self w = (Raise e, w') ->
  w' = w /\
  ((e = OSError (tpf_path self) /\ fs w !! tpf_path self = None) \/
   (e = IndexError /\ (List.length f < 3)%nat) \/
   (e = KeyError "NAXIS2" /\
    exists h1, f !! 1%nat = Some h1 /\ card_lookup "NAXIS2" (hdr h1) = None) \/
   (e = TypeError /\ exists h2, f !! 2%nat = Some h2 /\ data h2 = None)).
Proof.
  intros Hf.
  unfold get_metadata, getsize, header_loop, header, attr_fits, hdu_at,
    header_getitem, count_positive, bind, get, ret, raise.
  destruct (fs w !! tpf_path self) as [c|] eqn:Hc.
  2:{ intros H. inversion H. auto. }
  rewrite Hf. cbn.
  destruct (f !! 0%nat) as [h0|] eqn:H0; cbn.
  2:{ intros H. inversion H. split; [reflexivity|]. right. left. split; [reflexivity|].
      apply lookup_ge_None in H0. lia. }
  destruct (f !! 1%nat) as [h1|] eqn:H1; cbn.
  2:{ intros H. inversion H. split; [reflexivity|]. right. left. split; [reflexivity|].
      apply lookup_ge_None in H1. lia. }
  destruct (card_lookup "NAXIS2" (hdr h1)) as [cad|] eqn:Hcad; cbn.
  2:{ intros H. inversion H. split; [reflexivity|]. right. right. left. eauto. }
  destruct (f !! 2%nat) as [h2|] eqn:H2; cbn.
  2:{ intros H. inversion H. split; [reflexivity|]. right. left. split; [reflexivity|].
      apply lookup_ge_None in H2. lia. }
  destruct (data h2) as [pix|] eqn:Hpix; cbn.
  2:{ intros H. inversion H. split; [reflexivity|]. right. right. right. eauto. }
  discriminate.
Qed.

Lemma get_metadata_errors_witness :
  world = world /\
  ((KeyError "NAXIS2" = OSError (tpf_path odd_tpf) /\ fs world !! tpf_path odd_tpf = None) \/
   (KeyError "NAXIS2" = IndexError /\ (List.length odd_hdus < 3)%nat) \/
   (KeyError "NAXIS2" = KeyError "NAXIS2" /\
    exists h1, odd_hdus !! 1%nat = Some h1 /\ card_lookup "NAXIS2" (hdr h1) = None) \/
   (KeyError "NAXIS2" = TypeError /\ exists h2, odd_hdus !! 2%nat = Some h2 /\ data h2 = None)).
Proof.
  apply (get_metadata_errors odd_tpf world odd_hdus (KeyError "NAXIS2") world);
    vm_compute; reflexivity.
Defined.

(** X10: the data line is the comma-joined list of the values, with no
    quoting.  The header line has 37 commas; the data line of an
    extracted record has 37 commas plus those inside its values, so it
    has the fields of the header exactly when no value holds a comma. *)
Theorem csv_row_separators self w size h0 h1 h2 cad pix :
  extractable self w size h0 h1 h2 cad pix ->
  let cells := map py_str (od_values (expected_record (tpf_url self) size h0 h1 h2 cad pix)) in
  exists row,
    get_csv_row self w = (Ok row, w) /\
    count_char comma SPEC_HEADER = 37%nat /\
    count_char comma row = (37 + commas_in cells)%nat /\
    (count_char comma row = count_char comma SPEC_HEADER <->
     Forall (fun x => mem comma x = false) cells).
Proof.
  intros Hx cells. exists (join "," cells).
  split; [exact (get_csv_row_ok _ _ _ _ _ _ _ _ Hx)|].
  assert (Hh : count_char comma SPEC_HEADER = 37%nat) by (vm_compute; reflexivity).
  assert (Hr : count_char comma (join "," cells) = (37 + commas_in cells)%nat).
  { rewrite count_comma_cells by (subst cells; discriminate).
    replace (List.length cells) with 38%nat by reflexivity. reflexivity. }
  split; [exact Hh|]. split; [exact Hr|].
  rewrite Hh, Hr, <- commas_in_zero. lia.
Qed.

Lemma csv_row_separators_witness :
  let cells := map py_str (od_values (expected_record (tpf_url good_tpf) 4
                                        primary table aperture (PInt 3913) [0; 1; 3; 3; 0; -1])) in
  exists row,
    get_csv_row good_tpf world = (Ok row, world) /\
    count_char comma SPEC_HEADER = 37%nat /\
    count_char comma row = (37 + commas_in cells)%nat /\
    (count_char comma row = count_char comma SPEC_HEADER <->
     Forall (fun x => mem comma x = false) cells).
Proof.
  apply (csv_row_separators good_tpf world 4 primary table aperture
           (PInt 3913) [0; 1; 3; 3; 0; -1]).
  vm_compute. eauto 10.
Defined.

(** X11: the path looked up in the local mirror.  For a URL of the
    archive it is [DATA_STORE] followed by what follows the archive
    prefix in the URL; a URL that does not hold the archive prefix is
    looked up as it is. *)
Theorem local_path_of_url rest :
  contains MAST_PREFIX rest = false ->
  local_path (MAST_PREFIX +:+ rest) = DATA_STORE +:+ rest /\
  local_path rest = rest.
Proof.
  intros H. unfold local_path. split.
  - unfold MAST_PREFIX at 1 2. rewrite replace_occurrence.
    fold MAST_PREFIX. rewrite (replace_absent _ _ _ H). reflexivity.
  - apply replace_absent. exact H.
Qed.

Lemma local_path_of_url_witness :
  local_path (MAST_PREFIX +:+ "/c1/ktwo201126503-c01_lpd-targ.fits") =
    DATA_STORE +:+ "/c1/ktwo201126503-c01_lpd-targ.fits" /\
  local_path "/c1/ktwo201126503-c01_lpd-targ.fits" = "/c1/ktwo201126503-c01_lpd-targ.fits".
Proof.
  apply (local_path_of_url "/c1/ktwo201126503-c01_lpd-targ.fits").
  vm_compute. reflexivity.
Defined.

(** X12: the file name of a URL is what follows its last slash: this is
    the [filename] field of the record and the name of the scratch file
    in [TMPDIR]. *)
Theorem url_file_name d name size h0 h1 h2 cad pix :
  mem slash name = false ->
  scratch_path (d +:+ "/" +:+ name) = TMPDIR +:+ name /\
  card_lookup "filename" (expected_record (d +:+ "/" +:+ name) size h0 h1 h2 cad pix)
    = Some (PStr name).
Proof.
  intros H. rewrite scratch_path_eq. cbn [expected_record app card_lookup String.eqb].
  rewrite (basename_last d name H). split; reflexivity.
Qed.

Lemma url_file_name_witness :
  scratch_path ("http://example.org/tpf" +:+ "/" +:+ "k.fits") = TMPDIR +:+ "k.fits" /\
  card_lookup "filename"
    (expected_record ("http://example.org/tpf" +:+ "/" +:+ "k.fits") 4
       primary table aperture (PInt 3913) [0; 1; 3; 3; 0; -1])
    = Some (PStr "k.fits").
Proof.
  apply (url_file_name "http://example.org/tpf" "k.fits" 4
           primary table aperture (PInt 3913) [0; 1; 3; 3; 0; -1]).
  vm_compute. reflexivity.
Defined.

(** X13: a run with no URL to work on.  When the URL list is empty, or
    when the output path is the path of the URL list (which the run
    empties before it reads it), [write_metadata_table] raises
    [IndexError] at [urls[0]]: the output file is left empty and no
    worker is started. *)
Theorem empty_url_list_raises order input_fn output_fn w :
  create_error (env w) output_fn = None ->
  input_fn = output_fn \/ fs w !! input_fn = Some EmptyString ->
  write_metadata_table order input_fn output_fn w =
    (Raise IndexError, truncated output_fn w).
Proof.
  intros Hc Hin.
  pose proof (write_metadata_table_spec order input_fn output_fn w Hc) as H.
  assert (E : fs (truncated output_fn w) !! input_fn = Some EmptyString).
  { destruct (decide (input_fn = output_fn)) as [->|Hne]; [apply truncated_lookup|].
    destruct Hin as [? | Hin]; [contradiction|].
    cbn. rewrite lookup_insert_ne by congruence. exact Hin. }
  rewrite E in H. exact H.
Qed.

Lemma empty_url_list_raises_witness :
  write_metadata_table last_first
    "intermediate-data/k2-c01-tpf-urls.txt" "intermediate-data/k2-c01-tpf-urls.txt" world =
    (Raise IndexError, truncated "intermediate-data/k2-c01-tpf-urls.txt" world).
Proof.
  apply (empty_url_list_raises last_first
           "intermediate-data/k2-c01-tpf-urls.txt" "intermediate-data/k2-c01-tpf-urls.txt" world).
  - reflexivity.
  - left. reflexivity.
Defined.



(** X15: failures of single files never end a run.  When every
    campaign of the loop has its URL list with a line in it and its
    output file can be created, the campaign loop goes through to the
    end whatever the archive, the mirror and the files do: every
    campaign has its output file afterwards, and the URL lists are as
    they were. *)
Theorem campaign_loop_completes order campaigns w :
  (forall c, In c campaigns ->
     create_error (env w) (output_fn_of c) = None /\
     exists text, fs w !! input_fn_of c = Some text /\ readlines text <> []) ->
  exists w',
    campaign_loop order campaigns w = (Ok tt, w') /\
    (forall c, In c campaigns -> is_Some (fs w' !! output_fn_of c)) /\
    (forall c, fs w' !! input_fn_of c = fs w !! input_fn_of c).
Proof.
  intros Hall.
  destruct (campaign_loop_ok order campaigns w Hall) as (w' & Hrun & Hout).
  destruct (campaign_loop_total order campaigns w)
    as (r2 & w2 & evs2 & Hrun2 & _ & _ & _ & Hframe & _).
  rewrite Hrun in Hrun2. inversion Hrun2. subst r2 w2.
  exists w'. split; [exact Hrun|]. split; [exact Hout|].
  intros c. apply Hframe; [|apply input_not_in_scratch].
  intros c' _. apply input_output_apart.
Qed.

Lemma campaign_loop_completes_witness :
  exists w',
    campaign_loop last_first [1] world = (Ok tt, w') /\
    (forall c, In c [1] -> is_Some (fs w' !! output_fn_of c)) /\
    (forall c, fs w' !! input_fn_of c = fs world !! input_fn_of c).
Proof.
  apply (campaign_loop_completes last_first [1] world).
  intros c [<- | []]. split; [reflexivity|].
  exists url_list. split; vm_compute; [reflexivity | discriminate].
Defined.





(** X18: the files of the campaigns are kept apart: no output file of a
    campaign is the URL list of any campaign, and neither kind of file
    lies in the scratch directory, so no worker removes one. *)
Theorem campaign_files_apart c c' :
  input_fn_of c <> output_fn_of c' /\
  ~ in_scratch (input_fn_of c) /\ ~ in_scratch (output_fn_of c) /\
  (forall u, input_fn_of c <> scratch_path u /\ output_fn_of c <> scratch_path u).
Proof.
  split; [apply input_output_apart|].
  split; [apply input_not_in_scratch|]. split; [apply output_not_in_scratch|].
  intros u. split; apply not_in_scratch_neq; reflexivity.
Qed.

(** X19: the argument of the program names the campaigns.  Given the
    decimal text of a number, as [str] prints it, the program runs the
    campaign loop on that one campaign; given [all], on the campaigns 0
    to 5 in this order; the exit status is 0 when the loop goes
    through. *)
Theorem main_runs_campaign order prog c w :
  main order [prog; str_of_Z c] w = (campaign_loop order [c] >> ret 0) w /\
  main order [prog; "all"] w = (campaign_loop order [0; 1; 2; 3; 4; 5] >> ret 0) w.
Proof.
  split; [|reflexivity].
  unfold main. cbn [List.length Nat.eqb negb lookup list_lookup].
  rewrite str_of_Z_not_all. unfold bind, ret. rewrite py_int_text. reflexivity.
Qed.

(** X20: the campaign number can be read back from the file names:
    two campaigns have the same URL list, or the same output file, only
    when they are the same campaign. *)
Theorem campaign_files_distinct c c' :
  (input_fn_of c = input_fn_of c' <-> c = c') /\
  (output_fn_of c = output_fn_of c' <-> c = c').
Proof.
  split; (split; [|intros ->; reflexivity]); intros H;
    unfold input_fn_of, output_fn_of in H;
    apply append_inv_head, append_inv_tail in H; exact (fmt02_inj _ _ H).
Qed.
End Further.
